(** * ConvertRMMVTileFormatToTiledAutoTile.py: the RPG Maker MV -> Tiled
      autotile converter, embedded and verified.

    The script is a straight line: open the picked image, allocate a
    192x96 RGB canvas filled with (10,10,10), crop ten fixed boxes of the
    picked image and paste each one into the canvas, save the canvas as
    converted.png.

    Everything the script computes goes through four calls of the Pillow
    imaging library ([Image.new], [Image.crop], [Image.paste],
    [Image.save]).  Those are not part of the repository; they are embedded
    here after Pillow's implementation (PIL/Image.py, libImaging/Crop.c and
    libImaging/Paste.c), in the section "Pillow".  Scope of that embedding:
    - a raster is its RGB view: one (r, g, b) triple per pixel, rows of
      pixels as in the C core's array of row pointers.  Pillow converts a
      pasted image of another mode to the canvas' mode before copying (or,
      for an image with alpha, copies its colour bytes as they are), so the
      canvas only ever sees this view.  The zero ink that crop pads with
      reads (0,0,0) in this view for RGB, RGBA and grey images; palette and
      CMYK images, where the zero ink is another colour, are not modelled;
    - coordinates are unbounded integers: the script's constants are at most
      192, far from the 32-bit limits of the C core;
    - the file system is a finite map from file names to file contents, and
      an image file is kept as its format tag and its decoded raster. *)

From Stdlib Require Import ZArith Lia Ascii String.
From stdpp Require Import base list strings gmap.

Local Open Scope string_scope.
Local Open Scope list_scope.
Local Open Scope Z_scope.

(** ** Errors raised by the interpreter and by Pillow *)

Inductive exn : Type :=
  | ValueError (msg : string)
  | IndexError (msg : string)
  | FileNotFoundError (path : string)
  | UnidentifiedImageError (path : string).

Inductive result (A : Type) : Type :=
  | Ok (a : A)
  | Raise (e : exn).
Arguments Ok {A} a.
Arguments Raise {A} e.

Definition bind {A B : Type} (r : result A) (k : A -> result B) : result B :=
  match r with
  | Ok a => k a
  | Raise e => Raise e
  end.

Declare Scope py_scope.
Delimit Scope py_scope with py.
Notation "x <~ r ;; k" := (bind r (fun x => k))
  (at level 100, r at next level, right associativity) : py_scope.
Local Open Scope py_scope.

(** ** Rasters *)

(** An RGB pixel, as the tuple Pillow's getpixel returns. *)
Definition Pixel : Type := Z * Z * Z.

(** A box is (left, upper, right, lower). *)
Definition Box : Type := Z * Z * Z * Z.

Definition box_left (b : Box) : Z := b.1.1.1.
Definition box_upper (b : Box) : Z := b.1.1.2.
Definition box_right (b : Box) : Z := b.1.2.
Definition box_lower (b : Box) : Z := b.2.

(** The C core's ImagingMemoryInstance, reduced to what the script uses:
    the two sizes and the rows of pixels. *)
Record Image : Type := mkImage {
  xsize : Z;
  ysize : Z;
  image : list (list Pixel)
}.

(** The representation invariant of a raster: ysize rows of xsize pixels. *)
Definition wf_image (im : Image) : Prop :=
  0 <= xsize im /\ 0 <= ysize im /\
  length (image im) = Z.to_nat (ysize im) /\
  Forall (fun row => length row = Z.to_nat (xsize im)) (image im).

Definition wf_imageb (im : Image) : bool :=
  (0 <=? xsize im) && (0 <=? ysize im) &&
  Nat.eqb (length (image im)) (Z.to_nat (ysize im)) &&
  forallb (fun row => Nat.eqb (length row) (Z.to_nat (xsize im))) (image im).

(** im.size *)
Definition size (im : Image) : Z * Z := (xsize im, ysize im).

(** The pixel at column [x] of row [y]; IndexError where (x, y) is not a
    point of the raster.  The script reads no single pixel: this is how the
    theorems below observe a raster. *)
Definition getpixel (im : Image) (x y : Z) : result Pixel :=
  if (0 <=? x) && (x <? xsize im) && (0 <=? y) && (y <? ysize im) then
    match image im !! Z.to_nat y with
    | Some row =>
        match row !! Z.to_nat x with
        | Some p => Ok p
        | None => Raise (IndexError "image index out of range")
        end
    | None => Raise (IndexError "image index out of range")
    end
  else Raise (IndexError "image index out of range").

(** ** Pillow *)

(** ImagingNew followed by ImagingFill: a raster of one colour. *)
Definition ImagingNewFill (xs ys : Z) (ink : Pixel) : Image :=
  mkImage xs ys (replicate (Z.to_nat ys) (replicate (Z.to_nat xs) ink)).

(** Image.new('RGB', size, color): sizes are checked first. *)
Definition Image_new (sz : Z * Z) (color : Pixel) : result Image :=
  if (sz.1 <? 0) || (sz.2 <? 0) then
    Raise (ValueError "Width and height must be >= 0")
  else Ok (ImagingNewFill sz.1 sz.2 color).

(** memcpy(dst + doff, src + soff, n) on a row of pixels. *)
Definition memcpy (dst : list Pixel) (doff : nat) (src : list Pixel)
    (soff n : nat) : list Pixel :=
  take doff dst ++ take n (drop soff src) ++ drop (doff + n) dst.

(** Paste.c, paste(): for (y = 0; y < ysize; y++)
      memcpy(imOut->image[y + dy] + dx, imIn->image[y + sy] + sx, xsize).
    ImagingPaste clips the region first, so both rows exist. *)
Fixpoint paste_rows (n : nat) (out inp : list (list Pixel))
    (dx dy sx sy xs : nat) : list (list Pixel) :=
  match n with
  | O => out
  | S y =>
      let out' := paste_rows y out inp dx dy sx sy xs in
      match out' !! (y + dy)%nat, inp !! (y + sy)%nat with
      | Some o, Some i => <[(y + dy)%nat := memcpy o dx i sx xs]> out'
      | _, _ => out'
      end
  end.

Definition mismatch : exn := ValueError "images do not match".

(** Paste.c, ImagingPaste without mask: the box must have the size of the
    pasted image; the copied region is then clipped to the target. *)
Definition ImagingPaste (imOut imIn : Image) (dx0 dy0 dx1 dy1 : Z)
    : result Image :=
  let xs := dx1 - dx0 in
  let ys := dy1 - dy0 in
  if negb (xs =? xsize imIn) || negb (ys =? ysize imIn) then Raise mismatch
  else
    let '(xs, sx0, dx0) :=
      if dx0 <? 0 then (xs + dx0, - dx0, 0) else (xs, 0, dx0) in
    let xs := if xsize imOut <? dx0 + xs then xsize imOut - dx0 else xs in
    let '(ys, sy0, dy0) :=
      if dy0 <? 0 then (ys + dy0, - dy0, 0) else (ys, 0, dy0) in
    let ys := if ysize imOut <? dy0 + ys then ysize imOut - dy0 else ys in
    if (xs <=? 0) || (ys <=? 0) then Ok imOut
    else
      Ok (mkImage (xsize imOut) (ysize imOut)
            (paste_rows (Z.to_nat ys) (image imOut) (image imIn)
               (Z.to_nat dx0) (Z.to_nat dy0) (Z.to_nat sx0) (Z.to_nat sy0)
               (Z.to_nat xs))).

(** The ink ImagingCrop fills with where the box leaves the raster, in the
    RGB view of an RGB, RGBA or grey image.  (The fill is made in the
    image's own mode: for a palette image it reads as the first palette
    entry, which this raster does not record.) *)
Definition zero : Pixel := (0, 0, 0).

(** Crop.c, ImagingCrop: a new raster of the box's size, zero where the box
    leaves the input, with the input pasted on top at (-sx0, -sy0). *)
Definition ImagingCrop (imIn : Image) (sx0 sy0 sx1 sy1 : Z) : result Image :=
  let xs := Z.max 0 (sx1 - sx0) in
  let ys := Z.max 0 (sy1 - sy0) in
  let imOut := ImagingNewFill xs ys zero in
  ImagingPaste imOut imIn (- sx0) (- sy0) (xsize imIn - sx0) (ysize imIn - sy0).

(** Image.crop(box) *)
Definition Image_crop (im : Image) (box : Box) : result Image :=
  let '(x0, y0, x1, y1) := box in
  if x1 <? x0 then Raise (ValueError "Coordinate 'right' is less than 'left'")
  else if y1 <? y0 then
    Raise (ValueError "Coordinate 'lower' is less than 'upper'")
  else ImagingCrop im x0 y0 x1 y1.

(** A value of the script's [chunks] list: an int before the loop reaches
    the slot, the cropped image afterwards. *)
Inductive PyVal : Type :=
  | PyInt (n : Z)
  | PyImage (im : Image).

(** The ink of an int colour in mode RGB (getink): the three low bytes. *)
Definition ink_of_int (n : Z) : Pixel :=
  (Z.land n 255, Z.land (Z.shiftr n 8) 255, Z.land (Z.shiftr n 16) 255).

(** Image.paste(im, box) with a four-sided box and no mask.  An image is
    copied by ImagingPaste; an int is a colour and fills the box. *)
Definition Image_paste (self : Image) (im : PyVal) (box : Box)
    : result Image :=
  let '(x0, y0, x1, y1) := box in
  match im with
  | PyImage src => ImagingPaste self src x0 y0 x1 y1
  | PyInt n =>
      ImagingPaste self (ImagingNewFill (x1 - x0) (y1 - y0) (ink_of_int n))
        x0 y0 x1 y1
  end.

(** *** Files *)

Inductive Format : Type := PNG | JPEG | BMP | GIF.

Inductive File : Type :=
  | ImageFile (fmt : Format) (raster : Image)
  | OtherFile.

(** Image.open(fp).  A file is kept as its decoded raster, so opening
    succeeds or fails as a whole; Pillow reads the pixels only at the first
    crop, and a damaged file that fails there has no counterpart here. *)
Definition Image_open (fs : gmap string File) (fp : string) : result Image :=
  match fs !! fp with
  | None => Raise (FileNotFoundError fp)
  | Some (ImageFile _ im) => Ok im
  | Some OtherFile => Raise (UnidentifiedImageError fp)
  end.

(** os.path.splitext(fp)[1] for a file name without directory part: the
    suffix that starts at the last dot. *)
Fixpoint splitext (s : string) : string :=
  match s with
  | EmptyString => EmptyString
  | String c s' =>
      match splitext s' with
      | EmptyString => if Ascii.eqb c "."%char then s else EmptyString
      | e => e
      end
  end.

(** Image.EXTENSION, the registered extensions of the formats above. *)
Definition EXTENSION : list (string * Format) :=
  [(".png", PNG); (".jpg", JPEG); (".jpeg", JPEG); (".bmp", BMP);
   (".gif", GIF)].

Fixpoint assoc (k : string) (l : list (string * Format)) : option Format :=
  match l with
  | [] => None
  | (k', v) :: l' => if String.eqb k k' then Some v else assoc k l'
  end.

(** Image.save(fp): the format comes from the extension; the file is
    opened for writing, which replaces whatever was there.  A relative
    name such as converted.png is a key of the map as it stands: the map is
    the current working directory.  Every name can be written: a path
    that cannot (a directory, missing rights, a full disk) is not
    modelled. *)
Definition Image_save (im : Image) (fp : string) (fs : gmap string File)
    : result (gmap string File) :=
  match assoc (splitext fp) EXTENSION with
  | None => Raise (ValueError "unknown file extension")
  | Some fmt => Ok (<[fp := ImageFile fmt im]> fs)
  end.

(** ** The interpreter's list indexing, for indices that are not negative *)

Definition getitem {A : Type} (l : list A) (i : nat) : result A :=
  match l !! i with
  | Some a => Ok a
  | None => Raise (IndexError "list index out of range")
  end.

Definition setitem {A : Type} (l : list A) (i : nat) (a : A)
    : result (list A) :=
  if (i <? length l)%nat then Ok (<[i := a]> l)
  else Raise (IndexError "list assignment index out of range").

(** ** The script *)

Definition muted : Pixel := (10, 10, 10).
Definition final_size : Z * Z := (192, 96).

Definition c_lor : Box := (48, 0, 72, 24).
Definition c_lol : Box := (72, 0, 96, 24).
Definition c_upr : Box := (48, 24, 72, 48).
Definition c_upl : Box := (72, 24, 96, 48).
Definition e_up : Box := (24, 120, 72, 144).
Definition e_lo : Box := (24, 48, 72, 72).
Definition e_ri : Box := (72, 72, 96, 120).
Definition e_le : Box := (0, 72, 24, 120).
Definition center : Box := (24, 72, 72, 120).
Definition retain : Box := (0, 48, 96, 144).

Definition fc_lor : Box := (72, 72, 96, 96).
Definition fc_lol : Box := (0, 72, 24, 96).
Definition fc_upr : Box := (72, 0, 96, 24).
Definition fc_upl : Box := (0, 0, 24, 24).
Definition fe_up : Box := (24, 0, 72, 24).
Definition fe_lo : Box := (24, 72, 72, 96).
Definition fe_ri : Box := (0, 24, 24, 72).
Definition fe_le : Box := (72, 24, 96, 72).
Definition fcenter : Box := (24, 24, 72, 72).
Definition fretain : Box := (96, 0, 192, 96).

Definition regions : list Box :=
  [c_lor; c_lol; c_upr; c_upl; e_up; e_lo; e_ri; e_le; center; retain].
Definition fregions : list Box :=
  [fc_lor; fc_lol; fc_upr; fc_upl; fe_up; fe_lo; fe_ri; fe_le; fcenter;
   fretain].

(** chunks = list(range(10)) *)
Definition chunks0 : list PyVal := PyInt <$> seqZ 0 10.

(** What the loop changes: the [chunks] list and the canvas, which paste
    mutates in place. *)
Record State : Type := mkState {
  chunks : list PyVal;
  final_im : Image
}.

(** One turn of the loop:
      chunks[i] = start_im.crop(regions[i])
      final_im.paste(chunks[i], fregions[i]) *)
Definition body (start_im : Image) (i : nat) (st : State) : result State :=
  r <~ getitem regions i ;;
  c <~ Image_crop start_im r ;;
  chunks' <~ setitem (chunks st) i (PyImage c) ;;
  ch <~ getitem chunks' i ;;
  f <~ getitem fregions i ;;
  final' <~ Image_paste (final_im st) ch f ;;
  Ok (mkState chunks' final').

(** for i in idx: body *)
Fixpoint for_in (idx : list nat) (f : nat -> State -> result State)
    (st : State) : result State :=
  match idx with
  | [] => Ok st
  | i :: idx' => st' <~ f i st ;; for_in idx' f st'
  end.

(** The state after the first [k] turns of the loop, from a given canvas. *)
Definition run_turns (k : nat) (start_im canvas : Image) : result State :=
  for_in (seq 0 k) (body start_im) (mkState chunks0 canvas).

(** Lines 14 to 46, stopped after [k] turns of the loop: the canvas is
    allocated, then pasted into [k] times. *)
Definition convert_upto (k : nat) (start_im : Image) : result Image :=
  canvas <~ Image_new final_size muted ;;
  st <~ run_turns k start_im canvas ;;
  Ok (final_im st).

(** Lines 14 to 46: for i in range(len(regions)), the canvas the script
    builds from the opened image. *)
Definition convert (start_im : Image) : result Image :=
  convert_upto (length regions) start_im.

(** The whole script, on the file the user picked. *)
Definition main (fs : gmap string File) (picked : string)
    : result (gmap string File) :=
  start_im <~ Image_open fs picked ;;
  final <~ convert start_im ;;
  Image_save final "converted.png" fs.

(** ** Small rasters to run the script on *)

(** A raster whose pixel at (x, y) is (x, y, tag). *)
Definition gradient (w h tag : Z) : Image :=
  mkImage w h
    ((fun y => (fun x => (x, y, tag)) <$> seqZ 0 w) <$> seqZ 0 h).

(** A source image of the size the format assumes, and one far too small. *)
Definition sample : Image := gradient 96 144 7.
Definition tiny : Image := gradient 1 1 7.

(** A sheet that is too small but reaches into some of the source boxes. *)
Definition small_sheet : Image := gradient 50 100 7.

(** Two file systems: one where converted.png already exists, one where it
    does not. *)
Definition disk : gmap string File :=
  <["converted.png" := OtherFile]> (<["tile.png" := ImageFile PNG tiny]> ∅).
Definition other_disk : gmap string File :=
  <["autotile.bmp" := ImageFile BMP tiny]> ∅.

(** ** Boxes and points *)

Definition in_box (b : Box) (x y : Z) : bool :=
  (box_left b <=? x) && (x <? box_right b) &&
  (box_upper b <=? y) && (y <? box_lower b).

Definition box_width (b : Box) : Z := box_right b - box_left b.
Definition box_height (b : Box) : Z := box_lower b - box_upper b.

Definition inside (im : Image) (x y : Z) : bool :=
  (0 <=? x) && (x <? xsize im) && (0 <=? y) && (y <? ysize im).

Definition contains_box (im : Image) (b : Box) : bool :=
  (0 <=? box_left b) && (box_right b <=? xsize im) &&
  (0 <=? box_upper b) && (box_lower b <=? ysize im).

Definition same_size (s d : Box) : bool :=
  (box_width s =? box_width d) && (box_height s =? box_height d).

Definition ordered (b : Box) : bool :=
  (box_left b <=? box_right b) && (box_upper b <=? box_lower b).

(** Two boxes that share no point. *)
Definition disjoint_boxes (a b : Box) : bool :=
  (box_right a <=? box_left b) || (box_right b <=? box_left a) ||
  (box_lower a <=? box_upper b) || (box_lower b <=? box_upper a).

(** The destination boxes that hold the point (x, y). *)
Definition covering (x y : Z) : list Box :=
  List.filter (fun d => in_box d x y) fregions.

(** ** What the loop is expected to write *)

(** The pixel that cropping box [s] and pasting it at box [d] puts at
    (x, y) of the canvas: the pixel of the opened image at the same offset
    in [s], or zero where that leaves the image. *)
Definition src_pixel (start_im : Image) (s d : Box) (x y : Z)
    : result Pixel :=
  let sx := x - box_left d + box_left s in
  let sy := y - box_upper d + box_upper s in
  if inside start_im sx sy then getpixel start_im sx sy else Ok zero.

(** The effect of turn [i] on what is read at (x, y). *)
Definition paint (start_im : Image) (x y : Z) (acc : result Pixel) (i : nat)
    : result Pixel :=
  match regions !! i, fregions !! i with
  | Some s, Some d => if in_box d x y then src_pixel start_im s d x y else acc
  | _, _ => acc
  end.

(** The table of the specification, section 4.1: source box and
    destination box of the ten pairs, in the order of the table. *)
Definition spec_region_pairs : list (Box * Box) :=
  [ ((48, 0, 72, 24), (72, 72, 96, 96));
    ((72, 0, 96, 24), (0, 72, 24, 96));
    ((48, 24, 72, 48), (72, 0, 96, 24));
    ((72, 24, 96, 48), (0, 0, 24, 24));
    ((24, 120, 72, 144), (24, 0, 72, 24));
    ((24, 48, 72, 72), (24, 72, 72, 96));
    ((72, 72, 96, 120), (0, 24, 24, 72));
    ((0, 72, 24, 120), (72, 24, 96, 72));
    ((24, 72, 72, 120), (24, 24, 72, 72));
    ((0, 48, 96, 144), (96, 0, 192, 96)) ].

(** Step 3 of the specification's contract: crop then paste, pair after
    pair, onto the canvas of step 2. *)
Definition spec_crop_then_paste (start_im : Image) (canvas : result Image)
    (pair : Box * Box) : result Image :=
  final <~ canvas ;;
  chunk <~ Image_crop start_im pair.1 ;;
  Image_paste final (PyImage chunk) pair.2.

Definition spec_convert (start_im : Image) : result Image :=
  foldl (spec_crop_then_paste start_im) (Image_new (192, 96) (10, 10, 10))
    spec_region_pairs.

(** ** The part of the opened image that the loop reads *)

(** The points of the ten source boxes taken together: the 96x144 sheet
    without its top-left 48x48 square. *)
Definition footprint (u v : Z) : bool :=
  (0 <=? u) && (u <? 96) && (0 <=? v) && (v <? 144) &&
  negb ((u <? 48) && (v <? 48)).

(** Where the loop puts the source point (u, v): the same offset in the
    destination box of the first pair whose source box holds the point. *)
Fixpoint place_of (pairs : list (Box * Box)) (u v : Z) : option (Z * Z) :=
  match pairs with
  | [] => None
  | (s, d) :: rest =>
      if in_box s u v
      then Some (u - box_left s + box_left d, v - box_upper s + box_upper d)
      else place_of rest u v
  end.

(** A sheet larger than the format needs, with the same pixels as [sample]
    where both have one. *)
Definition sample_big : Image := gradient 200 150 7.

(** ** Case analysis on integer comparisons *)

Ltac cmp :=
  repeat match goal with
  | |- context [?a <=? ?b] => destruct (Z.leb_spec a b); try (exfalso; lia)
  | |- context [?a <? ?b] => destruct (Z.ltb_spec a b); try (exfalso; lia)
  | |- context [?a =? ?b] => destruct (Z.eqb_spec a b); try (exfalso; lia)
  end; simpl.

Ltac cmp_in H :=
  repeat match type of H with
  | context [?a <=? ?b] => destruct (Z.leb_spec a b); try (exfalso; lia)
  | context [?a <? ?b] => destruct (Z.ltb_spec a b); try (exfalso; lia)
  | context [?a =? ?b] => destruct (Z.eqb_spec a b); try (exfalso; lia)
  end; simpl in H; try discriminate H.

(** ** Rows of pixels: what memcpy and the row loop of paste do *)

Lemma memcpy_length (dst src : list Pixel) (doff soff n : nat) :
  (doff + n <= length dst)%nat -> (soff + n <= length src)%nat ->
  length (memcpy dst doff src soff n) = length dst.
Proof.
  intros Hd Hs. unfold memcpy.
  rewrite !length_app, !length_take, !length_drop. lia.
Qed.

Lemma memcpy_lookup_in (dst src : list Pixel) (doff soff n j : nat) :
  (doff + n <= length dst)%nat -> (soff + n <= length src)%nat ->
  (doff <= j < doff + n)%nat ->
  memcpy dst doff src soff n !! j = src !! (soff + (j - doff))%nat.
Proof.
  intros Hd Hs Hj. unfold memcpy.
  rewrite lookup_app_r by (rewrite length_take; lia).
  rewrite length_take, Nat.min_l by lia.
  rewrite lookup_app_l by (rewrite length_take, length_drop; lia).
  rewrite lookup_take_lt by lia. apply lookup_drop.
Qed.

Lemma memcpy_lookup_out (dst src : list Pixel) (doff soff n j : nat) :
  (doff + n <= length dst)%nat -> (soff + n <= length src)%nat ->
  ~ (doff <= j < doff + n)%nat ->
  memcpy dst doff src soff n !! j = dst !! j.
Proof.
  intros Hd Hs Hj. unfold memcpy.
  destruct (Nat.lt_ge_cases j doff) as [Hlt | Hge].
  - rewrite lookup_app_l by (rewrite length_take; lia).
    apply lookup_take_lt; lia.
  - rewrite lookup_app_r by (rewrite length_take; lia).
    rewrite length_take, Nat.min_l by lia.
    rewrite lookup_app_r by (rewrite length_take, length_drop; lia).
    rewrite length_take, length_drop, Nat.min_l by lia.
    rewrite lookup_drop. f_equal. lia.
Qed.

Lemma paste_rows_length n (out inp : list (list Pixel)) dx dy sx sy xs :
  length (paste_rows n out inp dx dy sx sy xs) = length out.
Proof.
  induction n as [| y IH]; simpl; [reflexivity |].
  destruct (paste_rows y out inp dx dy sx sy xs !! (y + dy)%nat);
    [| exact IH].
  destruct (inp !! (y + sy)%nat); [| exact IH].
  rewrite length_insert. exact IH.
Qed.

Lemma paste_rows_lookup_out n (out inp : list (list Pixel)) dx dy sx sy xs r :
  ~ (dy <= r < dy + n)%nat ->
  paste_rows n out inp dx dy sx sy xs !! r = out !! r.
Proof.
  induction n as [| y IH]; simpl; intros Hr; [reflexivity |].
  destruct (paste_rows y out inp dx dy sx sy xs !! (y + dy)%nat);
    [| apply IH; lia].
  destruct (inp !! (y + sy)%nat); [| apply IH; lia].
  rewrite list_lookup_insert_ne by lia. apply IH; lia.
Qed.

Lemma paste_rows_lookup_in n (out inp : list (list Pixel)) dx dy sx sy xs r
    (o i : list Pixel) :
  (dy <= r < dy + n)%nat ->
  out !! r = Some o -> inp !! (r - dy + sy)%nat = Some i ->
  paste_rows n out inp dx dy sx sy xs !! r = Some (memcpy o dx i sx xs).
Proof.
  induction n as [| y IH]; simpl; intros Hr Ho Hi; [lia |].
  destruct (decide (r = y + dy)%nat) as [-> | Hne].
  - rewrite paste_rows_lookup_out by lia.
    replace (y + dy - dy + sy)%nat with (y + sy)%nat in Hi by lia.
    rewrite Ho, Hi.
    apply list_lookup_insert_eq.
    rewrite paste_rows_length. apply lookup_lt_Some in Ho. exact Ho.
  - destruct (paste_rows y out inp dx dy sx sy xs !! (y + dy)%nat);
      [| apply IH; auto; lia].
    destruct (inp !! (y + sy)%nat); [| apply IH; auto; lia].
    rewrite list_lookup_insert_ne by lia. apply IH; auto; lia.
Qed.


(** ** Rasters: reading a pixel, and what ImagingPaste writes *)

Lemma inside_spec (im : Image) (x y : Z) :
  inside im x y = true <-> 0 <= x < xsize im /\ 0 <= y < ysize im.
Proof. unfold inside. split; [intros H; cmp_in H; lia | intros H; cmp; reflexivity]. Qed.

Lemma in_box_spec (b : Box) (x y : Z) :
  in_box b x y = true <->
  box_left b <= x < box_right b /\ box_upper b <= y < box_lower b.
Proof. unfold in_box. split; [intros H; cmp_in H; lia | intros H; cmp; reflexivity]. Qed.

Lemma wf_imageb_spec (im : Image) : wf_imageb im = true <-> wf_image im.
Proof.
  unfold wf_imageb, wf_image.
  rewrite !andb_true_iff, !Z.leb_le, Nat.eqb_eq, forallb_forall, Forall_forall.
  split.
  - intros [[[H1 H2] H3] H4]. repeat split; auto.
    intros r Hr. apply Nat.eqb_eq, H4. apply list_elem_of_In, Hr.
  - intros (H1 & H2 & H3 & H4). repeat split; auto.
    intros r Hr. apply Nat.eqb_eq, H4. apply list_elem_of_In, Hr.
Qed.

Lemma getpixel_rows (im : Image) (x y : Z) :
  wf_image im -> 0 <= x < xsize im -> 0 <= y < ysize im ->
  exists row p,
    image im !! Z.to_nat y = Some row /\ row !! Z.to_nat x = Some p /\
    length row = Z.to_nat (xsize im) /\ getpixel im x y = Ok p.
Proof.
  intros (Hx & Hy & Hlen & Hrows) Hxr Hyr.
  destruct (lookup_lt_is_Some_2 (image im) (Z.to_nat y)) as [row Hrow];
    [lia |].
  assert (Hw : length row = Z.to_nat (xsize im)).
  { rewrite Forall_lookup in Hrows. exact (Hrows _ _ Hrow). }
  destruct (lookup_lt_is_Some_2 row (Z.to_nat x)) as [p Hp]; [lia |].
  exists row, p. repeat split; auto.
  unfold getpixel. rewrite Hrow, Hp. cmp. reflexivity.
Qed.

Lemma getpixel_lookup (im : Image) (x y : Z) (row : list Pixel) :
  0 <= x < xsize im -> 0 <= y < ysize im ->
  image im !! Z.to_nat y = Some row ->
  getpixel im x y =
    match row !! Z.to_nat x with
    | Some p => Ok p
    | None => Raise (IndexError "image index out of range")
    end.
Proof. intros Hx Hy Hrow. unfold getpixel. rewrite Hrow. cmp. reflexivity. Qed.

Lemma wf_ImagingNewFill (xs ys : Z) (ink : Pixel) :
  0 <= xs -> 0 <= ys -> wf_image (ImagingNewFill xs ys ink).
Proof.
  intros Hx Hy. unfold wf_image, ImagingNewFill; simpl.
  repeat split; auto.
  - apply length_replicate.
  - apply Forall_replicate, length_replicate.
Qed.

Lemma getpixel_ImagingNewFill (xs ys : Z) (ink : Pixel) (x y : Z) :
  0 <= x < xs -> 0 <= y < ys ->
  getpixel (ImagingNewFill xs ys ink) x y = Ok ink.
Proof.
  intros Hx Hy. unfold getpixel, ImagingNewFill; simpl.
  rewrite lookup_replicate_2 by lia. rewrite lookup_replicate_2 by lia.
  cmp. reflexivity.
Qed.

(** The row loop of paste, on well-formed rasters and a region that lies in
    both: the region is replaced by the source's pixels, the rest stays. *)
Lemma paste_rows_pixel (imOut imIn : Image) (dx dy sx sy xs ys : Z) :
  wf_image imOut -> wf_image imIn ->
  0 <= dx -> 0 <= sx -> 0 < xs ->
  dx + xs <= xsize imOut -> sx + xs <= xsize imIn ->
  0 <= dy -> 0 <= sy -> 0 < ys ->
  dy + ys <= ysize imOut -> sy + ys <= ysize imIn ->
  wf_image
    (mkImage (xsize imOut) (ysize imOut)
       (paste_rows (Z.to_nat ys) (image imOut) (image imIn)
          (Z.to_nat dx) (Z.to_nat dy) (Z.to_nat sx) (Z.to_nat sy)
          (Z.to_nat xs))) /\
  forall x y, 0 <= x < xsize imOut -> 0 <= y < ysize imOut ->
    getpixel
      (mkImage (xsize imOut) (ysize imOut)
         (paste_rows (Z.to_nat ys) (image imOut) (image imIn)
            (Z.to_nat dx) (Z.to_nat dy) (Z.to_nat sx) (Z.to_nat sy)
            (Z.to_nat xs))) x y =
      if (dx <=? x) && (x <? dx + xs) && (dy <=? y) && (y <? dy + ys)
      then getpixel imIn (x - dx + sx) (y - dy + sy)
      else getpixel imOut x y.
Proof.
  intros HwO HwI Hdx Hsx Hxs HdxO HsxI Hdy Hsy Hys HdyO HsyI.
  set (out := mkImage (xsize imOut) (ysize imOut) _).
  assert (Hrow : forall y, 0 <= y < ysize imOut ->
    exists row, image out !! Z.to_nat y = Some row /\
      length row = Z.to_nat (xsize imOut) /\
      forall x, 0 <= x < xsize imOut ->
        row !! Z.to_nat x =
          if (dx <=? x) && (x <? dx + xs) && (dy <=? y) && (y <? dy + ys)
          then match getpixel imIn (x - dx + sx) (y - dy + sy) with
               | Ok p => Some p | Raise _ => None end
          else match getpixel imOut x y with
               | Ok p => Some p | Raise _ => None end).
  { intros y Hy.
    destruct (getpixel_rows imOut 0 y HwO ltac:(lia) Hy)
      as (o & _ & Ho & _ & Hlo & _).
    destruct (decide (dy <= y < dy + ys)) as [Hin | Hout].
    - destruct (getpixel_rows imIn sx (y - dy + sy) HwI ltac:(lia) ltac:(lia))
        as (i & _ & Hi & _ & Hli & _).
      exists (memcpy o (Z.to_nat dx) i (Z.to_nat sx) (Z.to_nat xs)).
      split; [| split].
      + simpl. apply paste_rows_lookup_in; [lia | exact Ho |].
        rewrite <- Hi. f_equal. lia.
      + rewrite memcpy_length by lia. exact Hlo.
      + intros x Hx.
        destruct (decide (dx <= x < dx + xs)) as [Hxin | Hxout].
        * rewrite memcpy_lookup_in by lia.
          destruct (getpixel_rows imIn (x - dx + sx) (y - dy + sy) HwI
                      ltac:(lia) ltac:(lia)) as (i' & p & Hi' & Hp & _ & Hg).
          rewrite Hi in Hi'. injection Hi' as <-.
          rewrite Hg. cmp.
          rewrite <- Hp. f_equal. lia.
        * rewrite memcpy_lookup_out by lia.
          destruct (getpixel_rows imOut x y HwO Hx Hy)
            as (o' & p & Ho' & Hp & _ & Hg).
          rewrite Ho in Ho'. injection Ho' as <-.
          rewrite Hg, Hp.
          destruct ((dx <=? x) && (x <? dx + xs)) eqn:E; [| reflexivity].
          exfalso. apply andb_true_iff in E as [E1 E2].
          apply Z.leb_le in E1. apply Z.ltb_lt in E2. lia.
    - exists o. split; [| split].
      + simpl. rewrite paste_rows_lookup_out by lia. exact Ho.
      + exact Hlo.
      + intros x Hx.
        destruct (getpixel_rows imOut x y HwO Hx Hy)
          as (o' & p & Ho' & Hp & _ & Hg).
        rewrite Ho in Ho'. injection Ho' as <-.
        rewrite Hg, Hp.
        destruct ((dx <=? x) && (x <? dx + xs) && (dy <=? y) && (y <? dy + ys))
          eqn:E; [| reflexivity].
        exfalso. rewrite !andb_true_iff in E.
        destruct E as [[_ E1] E2].
        apply Z.leb_le in E1. apply Z.ltb_lt in E2. lia. }
  split.
  - destruct HwO as (H1 & H2 & H3 & H4).
    unfold wf_image; simpl. repeat split; auto.
    + rewrite paste_rows_length. exact H3.
    + apply Forall_lookup. intros r row Hr.
      assert (Hlt : (r < Z.to_nat (ysize imOut))%nat).
      { apply lookup_lt_Some in Hr. rewrite paste_rows_length in Hr. lia. }
      destruct (Hrow (Z.of_nat r) ltac:(lia)) as (row' & Hr' & Hl & _).
      rewrite Nat2Z.id in Hr'. simpl in Hr'. rewrite Hr in Hr'.
      injection Hr' as <-. exact Hl.
  - intros x y Hx Hy.
    destruct (Hrow y Hy) as (row & Hr & Hl & Hpix).
    rewrite (getpixel_lookup out x y row Hx Hy Hr).
    rewrite (Hpix x Hx).
    destruct ((dx <=? x) && (x <? dx + xs) && (dy <=? y) && (y <? dy + ys))
      eqn:E.
    + rewrite !andb_true_iff in E. destruct E as [[[E1 E2] E3] E4].
      apply Z.leb_le in E1, E3. apply Z.ltb_lt in E2, E4.
      destruct (getpixel_rows imIn (x - dx + sx) (y - dy + sy) HwI
                  ltac:(lia) ltac:(lia)) as (_ & p & _ & _ & _ & Hg).
      rewrite Hg. reflexivity.
    + destruct (getpixel_rows imOut x y HwO Hx Hy) as (_ & p & _ & _ & _ & Hg).
      rewrite Hg. reflexivity.
Qed.

(** ImagingPaste with a box of the pasted image's size: it succeeds, keeps
    the target's size, and a pixel of the target is replaced exactly when
    it lies in the box. *)
Lemma ImagingPaste_ok (imOut imIn : Image) (dx0 dy0 dx1 dy1 : Z) :
  wf_image imOut -> wf_image imIn ->
  dx1 - dx0 = xsize imIn -> dy1 - dy0 = ysize imIn ->
  exists out,
    ImagingPaste imOut imIn dx0 dy0 dx1 dy1 = Ok out /\
    wf_image out /\ xsize out = xsize imOut /\ ysize out = ysize imOut /\
    forall x y, 0 <= x < xsize imOut -> 0 <= y < ysize imOut ->
      getpixel out x y =
        if in_box (dx0, dy0, dx1, dy1) x y
        then getpixel imIn (x - dx0) (y - dy0)
        else getpixel imOut x y.
Proof.
  intros HwO HwI Hxs Hys.
  pose proof HwO as (HOx & HOy & _). pose proof HwI as (HIx & HIy & _).
  unfold ImagingPaste. rewrite Hxs, Hys, !Z.eqb_refl. simpl.
  destruct (Z.ltb_spec dx0 0) as [Hc1 | Hc1];
    destruct (Z.ltb_spec dy0 0) as [Hc2 | Hc2]; cbv zeta iota beta;
    repeat match goal with
    | |- context [if ?a <? ?b then _ else _] =>
        destruct (Z.ltb_spec a b)
    end;
    match goal with
    | |- context [(?xs <=? 0) || (?ys <=? 0)] =>
        destruct (Z.leb_spec xs 0) as [Hz1 | Hz1];
        [| destruct (Z.leb_spec ys 0) as [Hz2 | Hz2]]
    end; cbn [orb];
    first
    [ exists imOut; split; [reflexivity |];
      split; [exact HwO |]; split; [reflexivity |]; split; [reflexivity |];
      intros x y Hx Hy;
      replace (in_box (dx0, dy0, dx1, dy1) x y) with false;
      [ reflexivity
      | symmetry; apply not_true_iff_false; rewrite in_box_spec;
        unfold box_left, box_right, box_upper, box_lower; simpl; lia ]
    | match goal with
      | |- context [paste_rows (Z.to_nat ?ys) _ _ (Z.to_nat ?dx)
                      (Z.to_nat ?dy) (Z.to_nat ?sx) (Z.to_nat ?sy)
                      (Z.to_nat ?xs)] =>
          destruct (paste_rows_pixel imOut imIn dx dy sx sy xs ys HwO HwI)
            as [Hwf Hpix]; try lia
      end;
      eexists; split; [reflexivity |];
      split; [exact Hwf |]; split; [reflexivity |]; split; [reflexivity |];
      intros x y Hx Hy; rewrite (Hpix x y Hx Hy);
      unfold in_box, box_left, box_right, box_upper, box_lower; simpl;
      cmp; try reflexivity; f_equal; lia ].
Qed.

(** Image.crop with a box whose sides are in order: the result has the
    box's size; a pixel comes from the input where the box lies in it and
    is zero elsewhere. *)
Lemma Image_crop_ok (im : Image) (x0 y0 x1 y1 : Z) :
  wf_image im -> x0 <= x1 -> y0 <= y1 ->
  exists c,
    Image_crop im (x0, y0, x1, y1) = Ok c /\
    wf_image c /\ xsize c = x1 - x0 /\ ysize c = y1 - y0 /\
    forall x y, 0 <= x < x1 - x0 -> 0 <= y < y1 - y0 ->
      getpixel c x y =
        if inside im (x + x0) (y + y0)
        then getpixel im (x + x0) (y + y0)
        else Ok zero.
Proof.
  intros Hw Hx Hy. unfold Image_crop.
  destruct (Z.ltb_spec x1 x0); [lia |].
  destruct (Z.ltb_spec y1 y0); [lia |].
  unfold ImagingCrop. rewrite !Z.max_r by lia.
  destruct (ImagingPaste_ok (ImagingNewFill (x1 - x0) (y1 - y0) zero) im
              (- x0) (- y0) (xsize im - x0) (ysize im - y0))
    as (c & Hc & Hwc & Hxc & Hyc & Hpix);
    [apply wf_ImagingNewFill; lia | exact Hw | lia | lia |].
  exists c. split; [exact Hc |]. split; [exact Hwc |].
  split; [exact Hxc |]. split; [exact Hyc |].
  intros x y Hxr Hyr. rewrite (Hpix x y Hxr Hyr).
  rewrite getpixel_ImagingNewFill by assumption.
  unfold in_box, inside, box_left, box_right, box_upper, box_lower; simpl.
  replace (x - - x0) with (x + x0) by lia.
  replace (y - - y0) with (y + y0) by lia.
  cmp; reflexivity.
Qed.

(** ** The loop *)

Lemma pair_at (i : nat) :
  (i < 10)%nat ->
  exists s d, regions !! i = Some s /\ fregions !! i = Some d /\
    ordered s = true /\ same_size s d = true.
Proof.
  intros Hi.
  do 10 (destruct i as [| i]; [eexists _, _; repeat split; reflexivity |]).
  lia.
Qed.

Lemma chunks0_length : length chunks0 = 10%nat.
Proof. reflexivity. Qed.

Lemma seq_below (k : nat) :
  (k <= 10)%nat -> Forall (fun i => (i < 10)%nat) (seq 0 k).
Proof.
  intros Hk. apply Forall_forall. intros i Hi.
  apply elem_of_seq in Hi. lia.
Qed.

Section Loop.

(** The opened image, fixed for the whole run and never written to. *)
Variable start_im : Image.
Hypothesis start_im_wf : wf_image start_im.

(** One turn succeeds, keeps the canvas' size and rewrites exactly the
    destination box. *)
Lemma body_ok (i : nat) (st : State) (s d : Box) :
  wf_image (final_im st) ->
  length (chunks st) = 10%nat ->
  regions !! i = Some s -> fregions !! i = Some d ->
  ordered s = true -> same_size s d = true ->
  exists st',
    body start_im i st = Ok st' /\
    wf_image (final_im st') /\
    xsize (final_im st') = xsize (final_im st) /\
    ysize (final_im st') = ysize (final_im st) /\
    length (chunks st') = 10%nat /\
    forall x y, 0 <= x < xsize (final_im st) -> 0 <= y < ysize (final_im st) ->
      getpixel (final_im st') x y =
        if in_box d x y then src_pixel start_im s d x y
        else getpixel (final_im st) x y.
Proof.
  intros Hwf Hlen Hs Hd Hord Hsame.
  assert (Hi : (i < 10)%nat).
  { apply lookup_lt_Some in Hs. exact Hs. }
  destruct s as [[[sx0 sy0] sx1] sy1]. destruct d as [[[dx0 dy0] dx1] dy1].
  unfold ordered, same_size, box_width, box_height, box_left, box_right,
    box_upper, box_lower in Hord, Hsame; simpl in Hord, Hsame.
  apply andb_true_iff in Hord as [Ho1 Ho2].
  apply andb_true_iff in Hsame as [Hs1 Hs2].
  apply Z.leb_le in Ho1, Ho2. apply Z.eqb_eq in Hs1, Hs2.
  destruct (Image_crop_ok start_im sx0 sy0 sx1 sy1 start_im_wf Ho1 Ho2)
    as (c & Hc & Hwc & Hxc & Hyc & Hcpix).
  destruct (ImagingPaste_ok (final_im st) c dx0 dy0 dx1 dy1 Hwf Hwc)
    as (out & Hout & Hwo & Hxo & Hyo & Hopix); [lia | lia |].
  exists (mkState (<[i := PyImage c]> (chunks st)) out).
  split.
  - unfold body, getitem, setitem. rewrite Hs. cbn [bind].
    rewrite Hc. cbn [bind].
    destruct (Nat.ltb_spec i (length (chunks st))); [| lia]. cbn [bind].
    rewrite list_lookup_insert_eq by lia. rewrite Hd. cbn [bind].
    unfold Image_paste. rewrite Hout. reflexivity.
  - simpl. split; [exact Hwo |]. split; [exact Hxo |]. split; [exact Hyo |].
    split; [rewrite length_insert; exact Hlen |].
    intros x y Hx Hy. rewrite (Hopix x y Hx Hy).
    destruct (in_box (dx0, dy0, dx1, dy1) x y) eqn:Hin; [| reflexivity].
    apply in_box_spec in Hin.
    unfold box_left, box_right, box_upper, box_lower in Hin; simpl in Hin.
    rewrite Hcpix by lia.
    unfold src_pixel, box_left, box_upper; simpl.
    reflexivity.
Qed.

(** Any sequence of turns does, and the pixel it leaves at (x, y) is what
    the turns painted there, in order. *)
Lemma for_in_ok (idx : list nat) :
  Forall (fun i => (i < 10)%nat) idx ->
  forall st, wf_image (final_im st) -> length (chunks st) = 10%nat ->
  exists st',
    for_in idx (body start_im) st = Ok st' /\
    wf_image (final_im st') /\
    xsize (final_im st') = xsize (final_im st) /\
    ysize (final_im st') = ysize (final_im st) /\
    length (chunks st') = 10%nat /\
    forall x y, 0 <= x < xsize (final_im st) -> 0 <= y < ysize (final_im st) ->
      getpixel (final_im st') x y =
        foldl (paint start_im x y) (getpixel (final_im st) x y) idx.
Proof.
  induction idx as [| i idx IH]; intros Hidx st Hwf Hlen.
  - exists st. split; [reflexivity |]. split; [exact Hwf |].
    split; [reflexivity |]. split; [reflexivity |]. split; [exact Hlen |].
    reflexivity.
  - apply Forall_cons in Hidx as [Hi Hidx].
    destruct (pair_at i Hi) as (s & d & Hs & Hd & Hord & Hsame).
    destruct (body_ok i st s d Hwf Hlen Hs Hd Hord Hsame)
      as (st1 & Hb & Hw1 & Hx1 & Hy1 & Hl1 & Hp1).
    destruct (IH Hidx st1 Hw1 Hl1) as (st2 & Hf & Hw2 & Hx2 & Hy2 & Hl2 & Hp2).
    exists st2. simpl. rewrite Hb. simpl.
    split; [exact Hf |]. split; [exact Hw2 |].
    split; [congruence |]. split; [congruence |]. split; [exact Hl2 |].
    intros x y Hx Hy. rewrite Hp2 by lia. rewrite Hp1 by lia.
    cbn [foldl]. f_equal. unfold paint. rewrite Hs, Hd. reflexivity.
Qed.

(** The first [k] turns never fail, keep the canvas' size, and leave at
    (x, y) what the turns painted there, in order. *)
Lemma run_turns_ok (k : nat) (canvas : Image) :
  wf_image canvas -> (k <= 10)%nat ->
  exists st,
    run_turns k start_im canvas = Ok st /\
    wf_image (final_im st) /\
    xsize (final_im st) = xsize canvas /\
    ysize (final_im st) = ysize canvas /\
    forall x y, 0 <= x < xsize canvas -> 0 <= y < ysize canvas ->
      getpixel (final_im st) x y =
        foldl (paint start_im x y) (getpixel canvas x y) (seq 0 k).
Proof.
  intros Hwc Hk. unfold run_turns.
  destruct (for_in_ok (seq 0 k) (seq_below k Hk)
              (mkState chunks0 canvas) Hwc chunks0_length)
    as (st & Hst & Hw & Hx & Hy & _ & Hp).
  exists st. auto.
Qed.

(** So does the script stopped after [k] turns, on its 192x96 canvas. *)
Lemma convert_upto_ok (k : nat) :
  (k <= 10)%nat ->
  exists out,
    convert_upto k start_im = Ok out /\
    wf_image out /\ xsize out = 192 /\ ysize out = 96 /\
    forall x y, 0 <= x < 192 -> 0 <= y < 96 ->
      getpixel out x y = foldl (paint start_im x y) (Ok muted) (seq 0 k).
Proof.
  intros Hk. unfold convert_upto, Image_new. simpl.
  destruct (run_turns_ok k (ImagingNewFill 192 96 muted)
              ltac:(apply wf_ImagingNewFill; lia) Hk)
    as (st & Hst & Hw & Hx & Hy & Hp).
  exists (final_im st). rewrite Hst. simpl.
  split; [reflexivity |]. split; [exact Hw |].
  split; [exact Hx |]. split; [exact Hy |].
  intros x y Hxr Hyr. rewrite (Hp x y Hxr Hyr).
  rewrite getpixel_ImagingNewFill by assumption. reflexivity.
Qed.

End Loop.

(** Turns whose destination box misses (x, y) leave it alone. *)
Lemma foldl_paint_miss (start_im : Image) (x y : Z) (idx : list nat)
    (acc : result Pixel) :
  (forall i d, i ∈ idx -> fregions !! i = Some d -> in_box d x y = false) ->
  foldl (paint start_im x y) acc idx = acc.
Proof.
  revert acc. induction idx as [| i idx IH]; intros acc Hmiss;
    [reflexivity |].
  cbn [foldl]. rewrite IH.
  - unfold paint. destruct (regions !! i); [| reflexivity].
    destruct (fregions !! i) as [d |] eqn:Hd; [| reflexivity].
    rewrite (Hmiss i d); [reflexivity | apply list_elem_of_here | exact Hd].
  - intros j d Hj. apply Hmiss. apply list_elem_of_further, Hj.
Qed.

(** A turn whose destination box holds (x, y) decides the pixel, whatever
    came before. *)
Lemma paint_hit (start_im : Image) (x y : Z) (acc : result Pixel) (i : nat)
    (s d : Box) :
  regions !! i = Some s -> fregions !! i = Some d -> in_box d x y = true ->
  paint start_im x y acc i = src_pixel start_im s d x y.
Proof. intros Hs Hd Hin. unfold paint. rewrite Hs, Hd, Hin. reflexivity. Qed.

(** ** The geometry of the destination boxes *)

Lemma disjoint_boxes_sound (a b : Box) (x y : Z) :
  disjoint_boxes a b = true -> in_box a x y = true -> in_box b x y = false.
Proof.
  intros Hd Ha. apply in_box_spec in Ha.
  apply not_true_iff_false. rewrite in_box_spec.
  unfold disjoint_boxes in Hd. rewrite !orb_true_iff, !Z.leb_le in Hd. lia.
Qed.

Lemma fregions_pairwise (i j : nat) (di dj : Box) :
  fregions !! i = Some di -> fregions !! j = Some dj -> i <> j ->
  disjoint_boxes di dj = true.
Proof.
  intros Hi Hj Hne.
  assert (Hi10 : (i < 10)%nat) by (apply lookup_lt_Some in Hi; exact Hi).
  assert (Hj10 : (j < 10)%nat) by (apply lookup_lt_Some in Hj; exact Hj).
  do 10 (destruct i as [| i]; [
    do 10 (destruct j as [| j];
      [ first [ congruence
              | injection Hi as <-; injection Hj as <-; reflexivity ] |]);
    lia |]).
  lia.
Qed.

Lemma fregions_cover (x y : Z) :
  0 <= x < 192 -> 0 <= y < 96 ->
  exists i d, fregions !! i = Some d /\ in_box d x y = true.
Proof.
  intros Hx Hy.
  assert (Hcol : x < 24 \/ 24 <= x < 72 \/ 72 <= x < 96 \/ 96 <= x) by lia.
  assert (Hrow : y < 24 \/ 24 <= y < 72 \/ 72 <= y) by lia.
  destruct Hcol as [Hc | [Hc | [Hc | Hc]]].
  - destruct Hrow as [Hr | [Hr | Hr]];
      [exists 3%nat, fc_upl | exists 6%nat, fe_ri | exists 1%nat, fc_lol];
      (split; [reflexivity | apply in_box_spec; cbn; lia]).
  - destruct Hrow as [Hr | [Hr | Hr]];
      [exists 4%nat, fe_up | exists 8%nat, fcenter | exists 5%nat, fe_lo];
      (split; [reflexivity | apply in_box_spec; cbn; lia]).
  - destruct Hrow as [Hr | [Hr | Hr]];
      [exists 2%nat, fc_upr | exists 7%nat, fe_le | exists 0%nat, fc_lor];
      (split; [reflexivity | apply in_box_spec; cbn; lia]).
  - exists 9%nat, fretain. split; [reflexivity | apply in_box_spec; cbn; lia].
Qed.

Lemma filter_length_sum {A : Type} (f : A -> bool) (l : list A) :
  length (List.filter f l) =
  sum_list ((fun a => if f a then 1%nat else 0%nat) <$> l).
Proof.
  induction l as [| a l IH]; [reflexivity |].
  cbn [List.filter fmap list_fmap sum_list sum_list_with].
  destruct (f a); cbn [length]; rewrite IH; reflexivity.
Qed.

Lemma covering_once (x y : Z) :
  0 <= x < 192 -> 0 <= y < 96 -> length (covering x y) = 1%nat.
Proof.
  intros Hx Hy. unfold covering. rewrite filter_length_sum.
  unfold fregions. cbn [fmap list_fmap sum_list sum_list_with].
  unfold in_box, box_left, box_right, box_upper, box_lower; cbn [fst snd
    fc_lor fc_lol fc_upr fc_upl fe_up fe_lo fe_ri fe_le fcenter fretain].
  assert (Hcol : x < 24 \/ 24 <= x < 72 \/ 72 <= x < 96 \/ 96 <= x) by lia.
  assert (Hrow : y < 24 \/ 24 <= y < 72 \/ 72 <= y) by lia.
  destruct Hcol as [Hc | [Hc | [Hc | Hc]]];
    destruct Hrow as [Hr | [Hr | Hr]]; cmp; reflexivity.
Qed.

(** Once turn [i] has painted (x, y), no later turn touches it. *)
Lemma foldl_paint_at (start_im : Image) (x y : Z) (k i : nat) (s d : Box)
    (acc : result Pixel) :
  (i < k <= 10)%nat ->
  regions !! i = Some s -> fregions !! i = Some d -> in_box d x y = true ->
  foldl (paint start_im x y) acc (seq 0 k) = src_pixel start_im s d x y.
Proof.
  intros Hik Hs Hd Hin.
  replace k with (i + S (k - i - 1))%nat by lia.
  rewrite seq_app, foldl_app. cbn [seq foldl]. simpl (0 + i)%nat.
  rewrite (paint_hit start_im x y _ i s d Hs Hd Hin).
  apply foldl_paint_miss. intros j dj Hj Hdj.
  apply elem_of_seq in Hj.
  apply (disjoint_boxes_sound d dj); [| exact Hin].
  apply (fregions_pairwise i j); auto. lia.
Qed.

Lemma fregions_in_canvas (i : nat) (d : Box) (x y : Z) :
  fregions !! i = Some d -> in_box d x y = true ->
  0 <= x < 192 /\ 0 <= y < 96.
Proof.
  intros Hd Hin. apply in_box_spec in Hin.
  assert (Hi : (i < 10)%nat) by (apply lookup_lt_Some in Hd; exact Hd).
  do 10 (destruct i as [| i]; [injection Hd as <-; cbn in Hin; lia |]).
  lia.
Qed.

Lemma pair_geometry (i : nat) (s d : Box) :
  regions !! i = Some s -> fregions !! i = Some d ->
  ordered s = true /\ same_size s d = true.
Proof.
  intros Hs Hd.
  assert (Hi : (i < 10)%nat) by (apply lookup_lt_Some in Hs; exact Hs).
  destruct (pair_at i Hi) as (s' & d' & Hs' & Hd' & Ho & Hsz).
  rewrite Hs in Hs'. rewrite Hd in Hd'.
  injection Hs' as <-. injection Hd' as <-. auto.
Qed.

(** Where the destination point falls in the source box. *)
Lemma src_point_in_box (s d : Box) (x y : Z) :
  same_size s d = true -> in_box d x y = true ->
  in_box s (x - box_left d + box_left s) (y - box_upper d + box_upper s)
    = true.
Proof.
  intros Hsz Hin. apply in_box_spec in Hin. apply in_box_spec.
  unfold same_size, box_width, box_height in Hsz.
  apply andb_true_iff in Hsz as [Hw Hh].
  apply Z.eqb_eq in Hw, Hh. lia.
Qed.

Lemma contains_box_inside (im : Image) (b : Box) (x y : Z) :
  contains_box im b = true -> in_box b x y = true -> inside im x y = true.
Proof.
  intros Hc Hin. apply in_box_spec in Hin. apply inside_spec.
  unfold contains_box in Hc. rewrite !andb_true_iff, !Z.leb_le in Hc. lia.
Qed.

(** ** The script run on the sample rasters *)

Example convert_sample_corner :
  (out <~ convert sample ;; getpixel out 0 0) = Ok (72, 24, 7).
Proof. vm_compute. reflexivity. Qed.

Example convert_sample_retain :
  (out <~ convert sample ;; getpixel out 100 5) = Ok (4, 53, 7).
Proof. vm_compute. reflexivity. Qed.

Example convert_sample_size :
  (out <~ convert sample ;; Ok (size out)) = Ok (192, 96).
Proof. vm_compute. reflexivity. Qed.

Example crop_outside_pads :
  (c <~ Image_crop tiny (0, 0, 2, 1) ;; Ok (image c))
  = Ok [[(0, 0, 7); (0, 0, 0)]].
Proof. vm_compute. reflexivity. Qed.

Example save_needs_known_extension :
  Image_save tiny "converted" ∅ = Raise (ValueError "unknown file extension").
Proof. reflexivity. Qed.

(** * The claims *)

(** C1, region fidelity.  For a well-formed source image that contains all
    ten source boxes, the conversion succeeds and, for each of the ten
    pairs, the canvas pixel at any point (x, y) of the destination box is
    the source pixel at the same offset in the source box: no scaling, and
    no later paste overwrites it. *)
Theorem region_fidelity (start_im : Image) (i : nat) (s d : Box) (x y : Z) :
  wf_image start_im ->
  forallb (contains_box start_im) regions = true ->
  regions !! i = Some s -> fregions !! i = Some d ->
  in_box d x y = true ->
  exists out p,
    convert start_im = Ok out /\
    getpixel out x y = Ok p /\
    getpixel start_im (box_left s + (x - box_left d))
                      (box_upper s + (y - box_upper d)) = Ok p.
Proof.
  intros Hw Hall Hs Hd Hin.
  destruct (convert_upto_ok start_im Hw 10 ltac:(lia))
    as (out & Hout & _ & _ & _ & Hpix).
  destruct (fregions_in_canvas i d x y Hd Hin) as [Hx Hy].
  destruct (pair_geometry i s d Hs Hd) as [_ Hsz].
  assert (Hi : (i < 10)%nat) by (apply lookup_lt_Some in Hs; exact Hs).
  assert (Hc : contains_box start_im s = true).
  { rewrite forallb_forall in Hall. apply Hall.
    apply list_elem_of_In, list_elem_of_lookup. eauto. }
  pose proof (contains_box_inside start_im s _ _ Hc
                (src_point_in_box s d x y Hsz Hin)) as Hins.
  apply inside_spec in Hins as Hr.
  destruct (getpixel_rows start_im _ _ Hw (proj1 Hr) (proj2 Hr))
    as (_ & p & _ & _ & _ & Hp).
  exists out, p. split; [exact Hout |]. split.
  - rewrite (Hpix x y Hx Hy).
    rewrite (foldl_paint_at start_im x y 10 i s d) by (auto; lia).
    unfold src_pixel. rewrite Hins. exact Hp.
  - rewrite <- Hp. f_equal; lia.
Qed.

Lemma region_fidelity_witness :
  exists out p,
    convert sample = Ok out /\
    getpixel out 30 10 = Ok p /\
    getpixel sample (box_left e_up + (30 - box_left fe_up))
                    (box_upper e_up + (10 - box_upper fe_up)) = Ok p.
Proof.
  apply (region_fidelity sample 4 e_up fe_up 30 10).
  - apply wf_imageb_spec. vm_compute. reflexivity.
  - vm_compute. reflexivity.
  - reflexivity.
  - reflexivity.
  - reflexivity.
Defined.

(** C4, background preservation, as the invariant of the loop.  After any
    number [k] of turns (the finished run is [k] = 10, where [convert_upto]
    is [convert]), a canvas pixel that lies outside the destination boxes of
    the turns made so far still has the fill colour (10,10,10). *)
Theorem background_preserved (start_im : Image) (k : nat) (x y : Z) :
  wf_image start_im -> (k <= 10)%nat ->
  0 <= x < 192 -> 0 <= y < 96 ->
  (forall d, d ∈ take k fregions -> in_box d x y = false) ->
  exists out,
    convert_upto k start_im = Ok out /\ getpixel out x y = Ok muted.
Proof.
  intros Hw Hk Hx Hy Hout.
  destruct (convert_upto_ok start_im Hw k Hk) as (out & Hc & _ & _ & _ & Hpix).
  exists out. split; [exact Hc |].
  rewrite (Hpix x y Hx Hy). apply foldl_paint_miss.
  intros i d Hi Hd. apply Hout.
  apply elem_of_seq in Hi. apply list_elem_of_lookup. exists i.
  rewrite lookup_take_lt by lia. exact Hd.
Qed.

Lemma background_preserved_witness :
  exists out,
    convert_upto 9 sample = Ok out /\ getpixel out 100 10 = Ok muted.
Proof.
  apply (background_preserved sample 9 100 10).
  - apply wf_imageb_spec. vm_compute. reflexivity.
  - lia.
  - lia.
  - lia.
  - intros d Hd. cbn in Hd.
    repeat (apply elem_of_cons in Hd as [-> | Hd]; [reflexivity |]).
    apply elem_of_nil in Hd. destruct Hd.
Defined.

(** C8.  Each of the ten source boxes lies in the 96x144 coordinate space
    and each of the ten destination boxes lies in the 192x96 canvas, with
    its sides in order. *)
Theorem boxes_in_bounds :
  Forall (fun s => 0 <= box_left s <= box_right s /\ box_right s <= 96 /\
                   0 <= box_upper s <= box_lower s /\ box_lower s <= 144)
         regions /\
  Forall (fun d => 0 <= box_left d <= box_right d /\ box_right d <= 192 /\
                   0 <= box_upper d <= box_lower d /\ box_lower d <= 96)
         fregions.
Proof. split; repeat constructor; cbn; lia. Qed.

(** C10.  In each of the ten pairs the source box and the destination box
    have the same width and the same height; hence the turn of the loop for
    that pair succeeds from every state the loop can be in: the crop has
    exactly the size of the four-sided destination box and paste does not
    raise its size-mismatch error. *)
Theorem pairs_same_size (i : nat) (s d : Box) (start_im : Image)
    (st : State) :
  regions !! i = Some s -> fregions !! i = Some d ->
  wf_image start_im -> wf_image (final_im st) ->
  length (chunks st) = 10%nat ->
  box_width s = box_width d /\ box_height s = box_height d /\
  exists chunk st',
    Image_crop start_im s = Ok chunk /\
    size chunk = (box_width d, box_height d) /\
    Image_paste (final_im st) (PyImage chunk) d <> Raise mismatch /\
    body start_im i st = Ok st'.
Proof.
  intros Hs Hd Hws Hwf Hlen.
  destruct (pair_geometry i s d Hs Hd) as [Hord Hsz].
  pose proof Hsz as Hsz'. unfold same_size in Hsz'.
  apply andb_true_iff in Hsz' as [Hw Hh]. apply Z.eqb_eq in Hw, Hh.
  split; [exact Hw |]. split; [exact Hh |].
  destruct (body_ok start_im Hws i st s d Hwf Hlen Hs Hd Hord Hsz)
    as (st' & Hb & _).
  destruct s as [[[sx0 sy0] sx1] sy1]. destruct d as [[[dx0 dy0] dx1] dy1].
  unfold ordered, box_width, box_height, box_left, box_right, box_upper,
    box_lower in *; simpl in *.
  apply andb_true_iff in Hord as [Ho1 Ho2]. apply Z.leb_le in Ho1, Ho2.
  destruct (Image_crop_ok start_im sx0 sy0 sx1 sy1 Hws Ho1 Ho2)
    as (c & Hc & Hwc & Hxc & Hyc & _).
  destruct (ImagingPaste_ok (final_im st) c dx0 dy0 dx1 dy1 Hwf Hwc)
    as (out & Hout & _); [lia | lia |].
  exists c, st'. split; [exact Hc |]. split.
  - unfold size. f_equal; lia.
  - split; [| exact Hb]. rewrite Hout. discriminate.
Qed.

Lemma pairs_same_size_witness :
  box_width retain = box_width fretain /\
  box_height retain = box_height fretain /\
  exists chunk st',
    Image_crop sample retain = Ok chunk /\
    size chunk = (box_width fretain, box_height fretain) /\
    Image_paste (ImagingNewFill 192 96 muted) (PyImage chunk) fretain
      <> Raise mismatch /\
    body sample 9 (mkState chunks0 (ImagingNewFill 192 96 muted)) = Ok st'.
Proof.
  apply (pairs_same_size 9 retain fretain sample
           (mkState chunks0 (ImagingNewFill 192 96 muted))).
  - reflexivity.
  - reflexivity.
  - apply wf_imageb_spec. vm_compute. reflexivity.
  - apply wf_imageb_spec. vm_compute. reflexivity.
  - reflexivity.
Defined.

(** C9.  The ten destination boxes tile the canvas: every canvas point
    lies in exactly one of them, and two different boxes share no point at
    all.  Consequently the finished canvas does not depend on the fill
    colour (its pixel at (x, y) is what the one turn that owns the point
    wrote there, and a run from a canvas of any other colour [c] ends with
    the same pixel), and no later turn overwrites what that turn wrote. *)
Theorem fregions_tile_canvas (start_im : Image) (c : Pixel) (x y : Z) :
  wf_image start_im -> 0 <= x < 192 -> 0 <= y < 96 ->
  length (covering x y) = 1%nat /\
  (forall i j di dj, fregions !! i = Some di -> fregions !! j = Some dj ->
     i <> j ->
     disjoint_boxes di dj = true /\
     forall x' y', in_box di x' y' = true -> in_box dj x' y' = false) /\
  exists i s d out st p,
    regions !! i = Some s /\ fregions !! i = Some d /\
    in_box d x y = true /\
    convert start_im = Ok out /\
    getpixel out x y = Ok p /\ src_pixel start_im s d x y = Ok p /\
    run_turns 10 start_im (ImagingNewFill 192 96 c) = Ok st /\
    getpixel (final_im st) x y = Ok p /\
    forall k, (i < k <= 10)%nat ->
      exists outk, convert_upto k start_im = Ok outk /\
                   getpixel outk x y = Ok p.
Proof.
  intros Hw Hx Hy.
  split; [apply covering_once; assumption |].
  split.
  { intros i j di dj Hi Hj Hne.
    pose proof (fregions_pairwise i j di dj Hi Hj Hne) as Hdis.
    split; [exact Hdis |].
    intros x' y'. apply disjoint_boxes_sound, Hdis. }
  destruct (fregions_cover x y Hx Hy) as (i & d & Hd & Hin).
  assert (Hi : (i < 10)%nat) by (apply lookup_lt_Some in Hd; exact Hd).
  destruct (lookup_lt_is_Some_2 regions i Hi) as [s Hs].
  destruct (convert_upto_ok start_im Hw 10 ltac:(lia))
    as (out & Hout & Hwo & Hxo & Hyo & Hpix).
  destruct (getpixel_rows out x y Hwo ltac:(lia) ltac:(lia))
    as (_ & p & _ & _ & _ & Hp).
  destruct (run_turns_ok start_im Hw 10 (ImagingNewFill 192 96 c)
              ltac:(apply wf_ImagingNewFill; lia) ltac:(lia))
    as (st & Hst & _ & _ & _ & Hpst).
  assert (Hsrc : src_pixel start_im s d x y = Ok p).
  { rewrite <- Hp, (Hpix x y Hx Hy). symmetry.
    apply (foldl_paint_at start_im x y 10 i s d); auto; lia. }
  exists i, s, d, out, st, p.
  repeat (split; [assumption |]). split.
  - rewrite (Hpst x y Hx Hy), <- Hsrc.
    apply (foldl_paint_at start_im x y 10 i s d); auto; lia.
  - intros k Hk.
    destruct (convert_upto_ok start_im Hw k ltac:(lia))
      as (outk & Houtk & _ & _ & _ & Hpk).
    exists outk. split; [exact Houtk |].
    rewrite (Hpk x y Hx Hy), <- Hsrc.
    apply (foldl_paint_at start_im x y k i s d); auto; lia.
Qed.

Lemma fregions_tile_canvas_witness :
  length (covering 50 50) = 1%nat /\
  (forall i j di dj, fregions !! i = Some di -> fregions !! j = Some dj ->
     i <> j ->
     disjoint_boxes di dj = true /\
     forall x' y', in_box di x' y' = true -> in_box dj x' y' = false) /\
  exists i s d out st p,
    regions !! i = Some s /\ fregions !! i = Some d /\
    in_box d 50 50 = true /\
    convert sample = Ok out /\
    getpixel out 50 50 = Ok p /\ src_pixel sample s d 50 50 = Ok p /\
    run_turns 10 sample (ImagingNewFill 192 96 (255, 0, 255)) = Ok st /\
    getpixel (final_im st) 50 50 = Ok p /\
    forall k, (i < k <= 10)%nat ->
      exists outk, convert_upto k sample = Ok outk /\
                   getpixel outk 50 50 = Ok p.
Proof.
  apply (fregions_tile_canvas sample (255, 0, 255) 50 50).
  - apply wf_imageb_spec. vm_compute. reflexivity.
  - lia.
  - lia.
Defined.

(** ** The loop against the specification's wording *)

Lemma foldl_raise (start_im : Image) (e : exn) (pairs : list (Box * Box)) :
  foldl (spec_crop_then_paste start_im) (Raise e) pairs = Raise e.
Proof. induction pairs as [| p pairs IH]; [reflexivity | exact IH]. Qed.

Lemma body_final (start_im : Image) (i : nat) (st : State) (s d : Box) :
  regions !! i = Some s -> fregions !! i = Some d ->
  length (chunks st) = 10%nat ->
  (st' <~ body start_im i st ;; Ok (final_im st')) =
    spec_crop_then_paste start_im (Ok (final_im st)) (s, d) /\
  forall st', body start_im i st = Ok st' -> length (chunks st') = 10%nat.
Proof.
  intros Hs Hd Hlen.
  assert (Hi : (i < 10)%nat) by (apply lookup_lt_Some in Hs; exact Hs).
  unfold body, spec_crop_then_paste, getitem, setitem.
  rewrite Hs. cbn [bind fst snd].
  destruct (Image_crop start_im s) as [c | e]; cbn [bind];
    [| split; [reflexivity | discriminate]].
  destruct (Nat.ltb_spec i (length (chunks st))); [| lia]. cbn [bind].
  rewrite list_lookup_insert_eq by lia. rewrite Hd. cbn [bind].
  destruct (Image_paste (final_im st) (PyImage c) d) as [out | e];
    cbn [bind]; [| split; [reflexivity | discriminate]].
  split; [reflexivity |].
  intros st' Hst'. injection Hst' as <-. simpl.
  rewrite length_insert. exact Hlen.
Qed.

Lemma for_in_spec (start_im : Image) (idx : list nat)
    (pairs : list (Box * Box)) :
  Forall2 (fun i p => regions !! i = Some p.1 /\ fregions !! i = Some p.2)
    idx pairs ->
  forall st, length (chunks st) = 10%nat ->
    (st' <~ for_in idx (body start_im) st ;; Ok (final_im st')) =
      foldl (spec_crop_then_paste start_im) (Ok (final_im st)) pairs.
Proof.
  induction 1 as [| i [s d] idx pairs [Hs Hd] _ IH]; intros st Hlen;
    [reflexivity |].
  destruct (body_final start_im i st s d Hs Hd Hlen) as [Hb Hl].
  cbn [for_in foldl]. rewrite <- Hb.
  destruct (body start_im i st) as [st1 | e]; cbn [bind].
  - apply IH, Hl. reflexivity.
  - symmetry. apply foldl_raise.
Qed.

(** C2.  The script's two lists, zipped, are the ten pairs of the
    specification's table in the table's order, and the conversion is crop
    then paste for each pair of that table, in that order, onto the
    192x96 canvas filled with (10,10,10). *)
Theorem region_table :
  zip regions fregions = spec_region_pairs /\
  length regions = 10%nat /\ length fregions = 10%nat /\
  forall start_im, convert start_im = spec_convert start_im.
Proof.
  split; [reflexivity |]. split; [reflexivity |]. split; [reflexivity |].
  intros start_im. unfold convert, convert_upto, spec_convert, run_turns.
  change (Image_new final_size muted)
    with (Ok (A := Image) (ImagingNewFill 192 96 muted)).
  change (Image_new (192, 96) (10, 10, 10))
    with (Ok (A := Image) (ImagingNewFill 192 96 muted)).
  cbn [bind].
  apply (for_in_spec start_im (seq 0 (length regions)) spec_region_pairs
           ltac:(repeat constructor)
           (mkState chunks0 (ImagingNewFill 192 96 muted))).
  reflexivity.
Qed.

(** ** The whole script *)

Lemma save_converted (im : Image) (fs : gmap string File) :
  Image_save im "converted.png" fs =
    Ok (<["converted.png" := ImageFile PNG im]> fs).
Proof. reflexivity. Qed.

Lemma main_ok (fs : gmap string File) (picked : string) (start_im : Image) :
  Image_open fs picked = Ok start_im -> wf_image start_im ->
  exists out,
    convert start_im = Ok out /\
    main fs picked = Ok (<["converted.png" := ImageFile PNG out]> fs) /\
    wf_image out /\ xsize out = 192 /\ ysize out = 96.
Proof.
  intros Hopen Hw.
  destruct (convert_upto_ok start_im Hw 10 ltac:(lia))
    as (out & Hout & Hwo & Hxo & Hyo & _).
  exists out. split; [exact Hout |]. split; [| auto].
  unfold main. rewrite Hopen. cbn [bind].
  unfold convert. change (length regions) with 10%nat. rewrite Hout.
  cbn [bind]. apply save_converted.
Qed.

(** C3.  Whatever well-formed image the picked file decodes to, of any
    size, the script ends with a file converted.png of format PNG whose
    raster is exactly 192 wide and 96 high; what the file system held under
    that name before is replaced, and no other file changes. *)
Theorem output_file (fs : gmap string File) (picked : string)
    (start_im : Image) :
  Image_open fs picked = Ok start_im -> wf_image start_im ->
  exists out fs',
    main fs picked = Ok fs' /\
    fs' !! "converted.png" = Some (ImageFile PNG out) /\
    convert start_im = Ok out /\
    size out = (192, 96) /\
    length (image out) = 96%nat /\
    Forall (fun row => length row = 192%nat) (image out) /\
    forall p, p <> "converted.png" -> fs' !! p = fs !! p.
Proof.
  intros Hopen Hw.
  destruct (main_ok fs picked start_im Hopen Hw)
    as (out & Hout & Hmain & Hwo & Hxo & Hyo).
  exists out, (<["converted.png" := ImageFile PNG out]> fs).
  split; [exact Hmain |].
  split; [apply lookup_insert_eq |].
  split; [exact Hout |].
  split; [unfold size; congruence |].
  destruct Hwo as (_ & _ & Hrows & Hcols). rewrite Hxo in Hcols.
  rewrite Hyo in Hrows.
  split; [exact Hrows |]. split; [exact Hcols |].
  intros p Hp. apply lookup_insert_ne. congruence.
Qed.

Lemma output_file_witness :
  exists out fs',
    main disk "tile.png" = Ok fs' /\
    fs' !! "converted.png" = Some (ImageFile PNG out) /\
    convert tiny = Ok out /\
    size out = (192, 96) /\
    length (image out) = 96%nat /\
    Forall (fun row => length row = 192%nat) (image out) /\
    forall p, p <> "converted.png" -> fs' !! p = disk !! p.
Proof.
  apply (output_file disk "tile.png" tiny).
  - reflexivity.
  - apply wf_imageb_spec. vm_compute. reflexivity.
Defined.

(** C5, counterexample.  A 1x1 source image is smaller than 96x144, yet the
    conversion raises nothing: every crop is padded with zeros, and the
    script writes an all-black 192x96 converted.png. *)
Lemma small_image_not_rejected :
  wf_image tiny /\ xsize tiny < 96 /\ ysize tiny < 144 /\
  convert tiny = Ok (ImagingNewFill 192 96 zero) /\
  main (<["tile.png" := ImageFile PNG tiny]> ∅) "tile.png" =
    Ok (<["converted.png" := ImageFile PNG (ImagingNewFill 192 96 zero)]>
          (<["tile.png" := ImageFile PNG tiny]> ∅)) /\
  ~ (forall start_im, wf_image start_im ->
       xsize start_im < 96 \/ ysize start_im < 144 ->
       exists e, convert start_im = Raise e).
Proof.
  assert (Hw : wf_image tiny) by (apply wf_imageb_spec; vm_compute; reflexivity).
  assert (Hc : convert tiny = Ok (ImagingNewFill 192 96 zero))
    by (vm_compute; reflexivity).
  split; [exact Hw |]. split; [cbn; lia |]. split; [cbn; lia |].
  split; [exact Hc |]. split.
  - unfold main.
    change (Image_open (<["tile.png" := ImageFile PNG tiny]> ∅) "tile.png")
      with (Ok (A := Image) tiny).
    cbn [bind]. rewrite Hc. cbn [bind]. apply save_converted.
  - intros Hclaim.
    destruct (Hclaim tiny Hw ltac:(left; cbn; lia)) as [e He].
    rewrite Hc in He. discriminate He.
Qed.

(** C5, as amended.  For a well-formed source image smaller than 96x144 the
    conversion does not fail: every crop and every paste succeeds and the
    192x96 canvas is produced.  For each of the ten pairs, a canvas pixel
    of the destination box whose source point (the same offset in the
    source box) lies inside the image is the image's pixel at that point.
    Nothing is stated about the other pixels. *)
Theorem small_image_converts (start_im : Image) (i : nat) (s d : Box)
    (x y : Z) :
  wf_image start_im ->
  xsize start_im < 96 \/ ysize start_im < 144 ->
  regions !! i = Some s -> fregions !! i = Some d ->
  in_box d x y = true ->
  exists out,
    convert start_im = Ok out /\ size out = (192, 96) /\
    (inside start_im (x - box_left d + box_left s)
                     (y - box_upper d + box_upper s) = true ->
     exists p,
       getpixel out x y = Ok p /\
       getpixel start_im (x - box_left d + box_left s)
                         (y - box_upper d + box_upper s) = Ok p).
Proof.
  intros Hw _ Hs Hd Hin.
  destruct (convert_upto_ok start_im Hw 10 ltac:(lia))
    as (out & Hout & _ & Hxo & Hyo & Hpix).
  destruct (fregions_in_canvas i d x y Hd Hin) as [Hx Hy].
  assert (Hi : (i < 10)%nat) by (apply lookup_lt_Some in Hs; exact Hs).
  exists out. split; [exact Hout |].
  split; [unfold size; congruence |].
  intros Hins. apply inside_spec in Hins as Hr.
  destruct (getpixel_rows start_im _ _ Hw (proj1 Hr) (proj2 Hr))
    as (_ & p & _ & _ & _ & Hp).
  exists p. split; [| exact Hp].
  rewrite (Hpix x y Hx Hy).
  rewrite (foldl_paint_at start_im x y 10 i s d) by (auto; lia).
  unfold src_pixel. cbv zeta. rewrite Hins. exact Hp.
Qed.

Lemma small_image_converts_witness :
  exists out,
    convert small_sheet = Ok out /\ size out = (192, 96) /\
    (inside small_sheet (80 - box_left fe_le + box_left e_le)
                        (30 - box_upper fe_le + box_upper e_le) = true ->
     exists p,
       getpixel out 80 30 = Ok p /\
       getpixel small_sheet (80 - box_left fe_le + box_left e_le)
                            (30 - box_upper fe_le + box_upper e_le) = Ok p).
Proof.
  apply (small_image_converts small_sheet 7 e_le fe_le 80 30).
  - apply wf_imageb_spec. vm_compute. reflexivity.
  - left. cbn. lia.
  - reflexivity.
  - reflexivity.
  - reflexivity.
Defined.

(** A four-sided box of another size than the pasted image is refused by
    paste.  The script never passes one: see the next theorem. *)
Example paste_rejects_other_size :
  (chunk <~ Image_crop sample (0, 0, 24, 24) ;;
   Image_paste (ImagingNewFill 192 96 muted) (PyImage chunk) (0, 0, 48, 24))
  = Raise mismatch.
Proof. vm_compute. reflexivity. Qed.



(** ** Rasters are determined by their pixels *)

Lemma image_ext (a b : Image) :
  wf_image a -> wf_image b ->
  xsize a = xsize b -> ysize a = ysize b ->
  (forall x y, 0 <= x < xsize a -> 0 <= y < ysize a ->
     getpixel a x y = getpixel b x y) ->
  a = b.
Proof.
  intros Hwa Hwb Hx Hy Hpix.
  pose proof Hwa as (_ & _ & Hlena & Halla).
  pose proof Hwb as (_ & _ & Hlenb & Hallb).
  rewrite Forall_lookup in Halla, Hallb.
  assert (Hrows : image a = image b).
  { apply list_eq. intros r.
    destruct (decide (r < Z.to_nat (ysize a))%nat) as [Hr | Hr];
      [| rewrite !lookup_ge_None_2 by lia; reflexivity].
    destruct (lookup_lt_is_Some_2 (image a) r) as [ra Hra]; [lia |].
    destruct (lookup_lt_is_Some_2 (image b) r) as [rb Hrb]; [lia |].
    pose proof (Halla r ra Hra) as Hla. pose proof (Hallb r rb Hrb) as Hlb.
    rewrite Hra, Hrb. f_equal. apply list_eq. intros c.
    destruct (decide (c < Z.to_nat (xsize a))%nat) as [Hc | Hc];
      [| rewrite !lookup_ge_None_2 by lia; reflexivity].
    destruct (getpixel_rows a (Z.of_nat c) (Z.of_nat r) Hwa
                ltac:(lia) ltac:(lia)) as (ra' & pa & Hra' & Hpa & _ & Hga).
    destruct (getpixel_rows b (Z.of_nat c) (Z.of_nat r) Hwb
                ltac:(lia) ltac:(lia)) as (rb' & pb & Hrb' & Hpb & _ & Hgb).
    rewrite Nat2Z.id in Hra', Hrb', Hpa, Hpb.
    rewrite Hra in Hra'. injection Hra' as <-.
    rewrite Hrb in Hrb'. injection Hrb' as <-.
    rewrite Hpa, Hpb.
    specialize (Hpix (Z.of_nat c) (Z.of_nat r) ltac:(lia) ltac:(lia)).
    rewrite Hga, Hgb in Hpix. congruence. }
  destruct a, b; simpl in *. subst. reflexivity.
Qed.

Lemma foldl_paint_ext (im1 im2 : Image) (x y : Z) (idx : list nat)
    (acc : result Pixel) :
  xsize im1 = xsize im2 -> ysize im1 = ysize im2 ->
  (forall u v, getpixel im1 u v = getpixel im2 u v) ->
  foldl (paint im1 x y) acc idx = foldl (paint im2 x y) acc idx.
Proof.
  intros Hx Hy Hpix. revert acc.
  induction idx as [| i idx IH]; intros acc; [reflexivity |].
  cbn [foldl]. rewrite IH. f_equal.
  unfold paint, src_pixel, inside. rewrite Hx, Hy.
  destruct (regions !! i); [| reflexivity].
  destruct (fregions !! i); [| reflexivity].
  rewrite Hpix. reflexivity.
Qed.

(** C7, determinism.  Take two runs of the script, in any two states of the
    file system and on any two picked files, whose decoded images have the
    same size and the same pixels (in particular: the same run twice).
    Both runs succeed and write the same canvas: the output is a function
    of the decoded input pixels alone. *)
Theorem determinism (fs1 fs2 : gmap string File) (p1 p2 : string)
    (im1 im2 : Image) :
  Image_open fs1 p1 = Ok im1 -> Image_open fs2 p2 = Ok im2 ->
  wf_image im1 -> wf_image im2 ->
  size im1 = size im2 ->
  (forall x y, getpixel im1 x y = getpixel im2 x y) ->
  exists out,
    convert im1 = Ok out /\ convert im2 = Ok out /\
    main fs1 p1 = Ok (<["converted.png" := ImageFile PNG out]> fs1) /\
    main fs2 p2 = Ok (<["converted.png" := ImageFile PNG out]> fs2).
Proof.
  intros Ho1 Ho2 Hw1 Hw2 Hsz Hpix.
  injection Hsz as Hx Hy.
  destruct (main_ok fs1 p1 im1 Ho1 Hw1)
    as (out1 & Hc1 & Hm1 & Hwo1 & Hx1 & Hy1).
  destruct (main_ok fs2 p2 im2 Ho2 Hw2)
    as (out2 & Hc2 & Hm2 & Hwo2 & Hx2 & Hy2).
  assert (Heq : out1 = out2).
  { apply image_ext; try assumption; try congruence.
    intros x y Hxr Hyr.
    destruct (convert_upto_ok im1 Hw1 10 ltac:(lia))
      as (o1 & Ho1' & _ & _ & _ & Hp1).
    destruct (convert_upto_ok im2 Hw2 10 ltac:(lia))
      as (o2 & Ho2' & _ & _ & _ & Hp2).
    unfold convert in Hc1, Hc2. change (length regions) with 10%nat in Hc1, Hc2.
    rewrite Hc1 in Ho1'. injection Ho1' as <-.
    rewrite Hc2 in Ho2'. injection Ho2' as <-.
    rewrite Hp1, Hp2 by lia.
    apply foldl_paint_ext; assumption. }
  subst out2. exists out1. auto.
Qed.

Lemma determinism_witness :
  exists out,
    convert tiny = Ok out /\ convert tiny = Ok out /\
    main disk "tile.png"
      = Ok (<["converted.png" := ImageFile PNG out]> disk) /\
    main other_disk "autotile.bmp"
      = Ok (<["converted.png" := ImageFile PNG out]> other_disk).
Proof.
  apply (determinism disk other_disk "tile.png" "autotile.bmp" tiny tiny).
  - reflexivity.
  - reflexivity.
  - apply wf_imageb_spec. vm_compute. reflexivity.
  - apply wf_imageb_spec. vm_compute. reflexivity.
  - reflexivity.
  - reflexivity.
Defined.

(** * Further properties of the script *)

(** ** The [chunks] list *)

(** A turn that succeeds has cropped its source box and stored the crop in
    its own slot of [chunks]; it is this crop that paste receives. *)
Lemma body_chunks (start_im : Image) (i : nat) (st st' : State) :
  body start_im i st = Ok st' ->
  exists r c,
    regions !! i = Some r /\ Image_crop start_im r = Ok c /\
    (i < length (chunks st))%nat /\
    chunks st' = <[i := PyImage c]> (chunks st).
Proof.
  unfold body, getitem, setitem. intros Hb.
  destruct (regions !! i) as [r |] eqn:Hr; cbn [bind] in Hb;
    [| discriminate Hb].
  destruct (Image_crop start_im r) as [c | e] eqn:Hc; cbn [bind] in Hb;
    [| discriminate Hb].
  destruct (Nat.ltb_spec i (length (chunks st))) as [Hlt | Hge];
    cbn [bind] in Hb; [| discriminate Hb].
  rewrite list_lookup_insert_eq in Hb by exact Hlt.
  destruct (fregions !! i) as [f |]; cbn [bind] in Hb; [| discriminate Hb].
  destruct (Image_paste (final_im st) (PyImage c) f) as [out | e];
    cbn [bind] in Hb; [| discriminate Hb].
  injection Hb as <-. exists r, c. auto.
Qed.

Lemma for_in_chunks (start_im : Image) (idx : list nat) :
  forall st st', for_in idx (body start_im) st = Ok st' ->
  length (chunks st') = length (chunks st) /\
  forall i,
    (i ∈ idx ->
     exists r c, regions !! i = Some r /\ Image_crop start_im r = Ok c /\
                 chunks st' !! i = Some (PyImage c)) /\
    (i ∉ idx -> chunks st' !! i = chunks st !! i).
Proof.
  induction idx as [| j idx IH]; intros st st' Hrun.
  - injection Hrun as <-. split; [reflexivity |].
    intros i. split; [intros Hi; apply elem_of_nil in Hi; destruct Hi | auto].
  - cbn [for_in] in Hrun.
    destruct (body start_im j st) as [st1 |] eqn:Hb; cbn [bind] in Hrun;
      [| discriminate Hrun].
    destruct (body_chunks start_im j st st1 Hb) as (r & c & Hr & Hc & Hlt & Hch).
    destruct (IH st1 st' Hrun) as [Hlen Hslots].
    split; [rewrite Hlen, Hch; apply length_insert |].
    intros i. destruct (Hslots i) as [Hin Hout]. split.
    + intros Hi. destruct (decide (i ∈ idx)) as [Hi' | Hi']; [auto |].
      apply elem_of_cons in Hi as [-> | Hi]; [| contradiction].
      exists r, c. split; [exact Hr |]. split; [exact Hc |].
      rewrite (Hout Hi'), Hch. apply list_lookup_insert_eq, Hlt.
    + intros Hi. apply not_elem_of_cons in Hi as [Hne Hi].
      rewrite (Hout Hi), Hch. apply list_lookup_insert_ne. congruence.
Qed.

(** X4.  The invariant of the [chunks] list: after [k] turns its first [k]
    slots hold the crops of the first [k] source boxes, each of its box's
    size, and the slots after them still hold the ints that
    list(range(10)) put there; the list keeps its ten slots. *)
Theorem chunks_after_turns (start_im canvas : Image) (k i : nat) :
  wf_image start_im -> wf_image canvas -> (k <= 10)%nat -> (i < 10)%nat ->
  exists st,
    run_turns k start_im canvas = Ok st /\
    length (chunks st) = 10%nat /\
    ((i < k)%nat ->
     exists r c, regions !! i = Some r /\ Image_crop start_im r = Ok c /\
                 size c = (box_width r, box_height r) /\
                 chunks st !! i = Some (PyImage c)) /\
    ((k <= i)%nat -> chunks st !! i = Some (PyInt (Z.of_nat i))).
Proof.
  intros Hws Hwc Hk Hi.
  destruct (run_turns_ok start_im Hws k canvas Hwc Hk) as (st & Hst & _).
  exists st. split; [exact Hst |].
  destruct (for_in_chunks start_im (seq 0 k) _ st Hst) as [Hlen Hslots].
  split; [exact Hlen |].
  destruct (Hslots i) as [Hin Hout]. split.
  - intros Hlt.
    destruct Hin as (r & c & Hr & Hc & Hch); [apply elem_of_seq; lia |].
    exists r, c. split; [exact Hr |]. split; [exact Hc |].
    split; [| exact Hch].
    destruct (pair_at i Hi) as (r' & d & Hr' & _ & Hord & _).
    rewrite Hr in Hr'. injection Hr' as <-.
    destruct r as [[[x0 y0] x1] y1].
    unfold ordered, box_left, box_right, box_upper, box_lower in Hord;
      simpl in Hord.
    apply andb_true_iff in Hord as [Ho1 Ho2]. apply Z.leb_le in Ho1, Ho2.
    destruct (Image_crop_ok start_im x0 y0 x1 y1 Hws Ho1 Ho2)
      as (c' & Hc' & _ & Hxc & Hyc & _).
    rewrite Hc in Hc'. injection Hc' as <-.
    unfold size, box_width, box_height, box_left, box_right, box_upper,
      box_lower; simpl. congruence.
  - intros Hge. rewrite Hout by (rewrite elem_of_seq; lia).
    cbn [chunks]. unfold chunks0. rewrite list_lookup_fmap.
    rewrite lookup_seqZ_lt by lia. reflexivity.
Qed.

Lemma chunks_after_turns_witness :
  exists st,
    run_turns 3 sample (ImagingNewFill 192 96 muted) = Ok st /\
    length (chunks st) = 10%nat /\
    ((2 < 3)%nat ->
     exists r c, regions !! 2%nat = Some r /\ Image_crop sample r = Ok c /\
                 size c = (box_width r, box_height r) /\
                 chunks st !! 2%nat = Some (PyImage c)) /\
    ((3 <= 2)%nat -> chunks st !! 2%nat = Some (PyInt (Z.of_nat 2))).
Proof.
  apply (chunks_after_turns sample (ImagingNewFill 192 96 muted) 3 2).
  - apply wf_imageb_spec. vm_compute. reflexivity.
  - apply wf_imageb_spec. vm_compute. reflexivity.
  - lia.
  - lia.
Defined.

(** ** The order of the turns *)

(** The turn that owns (x, y) decides the pixel wherever it stands in the
    sequence of turns, and however often it is repeated. *)
Lemma foldl_paint_owner (start_im : Image) (x y : Z) (idx : list nat)
    (i : nat) (s d : Box) (acc : result Pixel) :
  i ∈ idx ->
  regions !! i = Some s -> fregions !! i = Some d -> in_box d x y = true ->
  foldl (paint start_im x y) acc idx = src_pixel start_im s d x y.
Proof.
  intros Hi Hs Hd Hin. revert Hi.
  induction idx as [| j idx IH] using rev_ind; intros Hi.
  - apply elem_of_nil in Hi. destruct Hi.
  - rewrite foldl_app. cbn [foldl].
    destruct (decide (j = i)) as [-> | Hne].
    + apply (paint_hit start_im x y _ i s d Hs Hd Hin).
    + apply elem_of_app in Hi as [Hi | Hi];
        [| apply list_elem_of_singleton in Hi; congruence].
      rewrite (IH Hi). unfold paint.
      destruct (regions !! j); [| reflexivity].
      destruct (fregions !! j) as [dj |] eqn:Hdj; [| reflexivity].
      rewrite (disjoint_boxes_sound d dj x y); [reflexivity | | exact Hin].
      apply (fregions_pairwise i j); auto.
Qed.

Lemma foldl_paint_set (start_im : Image) (x y : Z) (idx1 idx2 : list nat)
    (acc : result Pixel) :
  (forall i, i ∈ idx1 <-> i ∈ idx2) ->
  foldl (paint start_im x y) acc idx1 = foldl (paint start_im x y) acc idx2.
Proof.
  intros Hsame.
  set (owns := fun i => match fregions !! i with
                        | Some d => in_box d x y
                        | None => false
                        end).
  destruct (existsb owns idx1) eqn:Hex.
  - apply existsb_exists in Hex as (i & Hi & Hown).
    apply list_elem_of_In in Hi. unfold owns in Hown.
    destruct (fregions !! i) as [d |] eqn:Hd; [| discriminate Hown].
    destruct (lookup_lt_is_Some_2 regions i) as [s Hs].
    { apply lookup_lt_Some in Hd. exact Hd. }
    rewrite (foldl_paint_owner start_im x y idx1 i s d) by auto.
    rewrite (foldl_paint_owner start_im x y idx2 i s d)
      by (auto; apply Hsame, Hi).
    reflexivity.
  - assert (Hmiss : forall i d, i ∈ idx1 -> fregions !! i = Some d ->
                                in_box d x y = false).
    { intros i d Hi Hd. apply not_true_iff_false. intros Hin.
      apply not_true_iff_false in Hex. apply Hex.
      apply existsb_exists. exists i.
      split; [apply list_elem_of_In, Hi |].
      unfold owns. rewrite Hd. exact Hin. }
    rewrite !foldl_paint_miss; auto.
    intros i d Hi. apply Hmiss, Hsame, Hi.
Qed.

(** X1.  The turns of the loop commute and are idempotent.  Run the body
    for two sequences of indices below ten that contain the same indices,
    in any order and with any repetitions, from the same well-formed canvas:
    both runs succeed and end in the same state, canvas and [chunks]
    alike. *)
Theorem turns_commute (start_im canvas : Image) (idx1 idx2 : list nat) :
  wf_image start_im -> wf_image canvas ->
  Forall (fun i => (i < 10)%nat) idx1 ->
  (forall i, i ∈ idx1 <-> i ∈ idx2) ->
  exists st,
    for_in idx1 (body start_im) (mkState chunks0 canvas) = Ok st /\
    for_in idx2 (body start_im) (mkState chunks0 canvas) = Ok st.
Proof.
  intros Hws Hwc Hlt1 Hsame.
  assert (Hlt2 : Forall (fun i => (i < 10)%nat) idx2).
  { rewrite Forall_forall in Hlt1. apply Forall_forall.
    intros i Hi. apply Hlt1, Hsame, Hi. }
  destruct (for_in_ok start_im Hws idx1 Hlt1 (mkState chunks0 canvas) Hwc
              chunks0_length) as (st1 & Hr1 & Hw1 & Hx1 & Hy1 & Hl1 & Hp1).
  destruct (for_in_ok start_im Hws idx2 Hlt2 (mkState chunks0 canvas) Hwc
              chunks0_length) as (st2 & Hr2 & Hw2 & Hx2 & Hy2 & Hl2 & Hp2).
  cbn [final_im] in *.
  assert (Him : final_im st1 = final_im st2).
  { apply image_ext; try assumption; try congruence.
    intros x y Hx Hy. rewrite Hp1, Hp2 by lia.
    apply foldl_paint_set, Hsame. }
  assert (Hch : chunks st1 = chunks st2).
  { destruct (for_in_chunks start_im idx1 _ st1 Hr1) as [_ Hs1].
    destruct (for_in_chunks start_im idx2 _ st2 Hr2) as [_ Hs2].
    apply list_eq. intros i.
    destruct (Hs1 i) as [Hin1 Hout1]. destruct (Hs2 i) as [Hin2 Hout2].
    destruct (decide (i ∈ idx1)) as [Hi | Hi].
    - destruct (Hin1 Hi) as (r1 & c1 & Hr1' & Hc1 & ->).
      destruct (Hin2 (proj1 (Hsame i) Hi)) as (r2 & c2 & Hr2' & Hc2 & ->).
      congruence.
    - rewrite (Hout1 Hi).
      rewrite Hout2; [reflexivity |].
      intros Hi2. apply Hi, Hsame, Hi2. }
  exists st1. split; [exact Hr1 |]. rewrite Hr2. f_equal.
  destruct st1, st2; simpl in *. congruence.
Qed.

Lemma turns_commute_witness :
  exists st,
    for_in (seq 0 10) (body sample)
      (mkState chunks0 (ImagingNewFill 192 96 muted)) = Ok st /\
    for_in [9; 9; 3; 1; 4; 0; 5; 2; 6; 8; 7; 3]%nat (body sample)
      (mkState chunks0 (ImagingNewFill 192 96 muted)) = Ok st.
Proof.
  apply (turns_commute sample (ImagingNewFill 192 96 muted)).
  - apply wf_imageb_spec. vm_compute. reflexivity.
  - apply wf_imageb_spec. vm_compute. reflexivity.
  - repeat constructor.
  - intros i. cbn [seq]. rewrite !elem_of_cons, !elem_of_nil. lia.
Defined.

(** ** What the loop reads of the opened image *)

Lemma footprint_spec (u v : Z) :
  footprint u v = true <->
  0 <= u < 96 /\ 0 <= v < 144 /\ (48 <= u \/ 48 <= v).
Proof.
  unfold footprint.
  rewrite !andb_true_iff, negb_true_iff, andb_false_iff.
  rewrite !Z.leb_le, !Z.ltb_lt, !Z.ltb_ge. lia.
Qed.

Lemma regions_footprint (i : nat) (s : Box) (u v : Z) :
  regions !! i = Some s -> in_box s u v = true -> footprint u v = true.
Proof.
  intros Hs Hin. apply in_box_spec in Hin. apply footprint_spec.
  assert (Hi : (i < 10)%nat) by (apply lookup_lt_Some in Hs; exact Hs).
  do 10 (destruct i as [| i]; [injection Hs as <-; cbn in Hin; lia |]).
  lia.
Qed.

Lemma footprint_region (u v : Z) :
  footprint u v = true ->
  exists i s, regions !! i = Some s /\ in_box s u v = true.
Proof.
  intros Hf. apply footprint_spec in Hf.
  destruct (Z.le_gt_cases 48 v) as [Hv | Hv].
  - exists 9%nat, retain. split; [reflexivity | apply in_box_spec; cbn; lia].
  - destruct (Z.lt_ge_cases u 72) as [Hu | Hu];
      destruct (Z.lt_ge_cases v 24) as [Hv' | Hv'];
      [ exists 0%nat, c_lor | exists 2%nat, c_upr
      | exists 1%nat, c_lol | exists 3%nat, c_upl ];
      (split; [reflexivity | apply in_box_spec; cbn; lia]).
Qed.

(** The source point that the owning turn reads for a canvas point. *)
Lemma src_pixel_read (im : Image) (i : nat) (s d : Box) (x y : Z) :
  regions !! i = Some s -> fregions !! i = Some d -> in_box d x y = true ->
  footprint (x - box_left d + box_left s) (y - box_upper d + box_upper s)
    = true.
Proof.
  intros Hs Hd Hin.
  destruct (pair_geometry i s d Hs Hd) as [_ Hsz].
  apply (regions_footprint i s); [exact Hs |].
  apply src_point_in_box; assumption.
Qed.

(** X2.  The canvas depends on the opened image only through the pixels
    of the ten source boxes.  Two well-formed images of at least 96x144,
    whatever their sizes, that agree on those points (the 96x144 sheet
    without its top-left 48x48 square) are converted to the same canvas:
    the top-left square and everything beyond column 96 or row 144 are
    ignored. *)
Theorem convert_reads_footprint (im1 im2 : Image) :
  wf_image im1 -> wf_image im2 ->
  96 <= xsize im1 -> 144 <= ysize im1 ->
  96 <= xsize im2 -> 144 <= ysize im2 ->
  (forall u v, footprint u v = true -> getpixel im1 u v = getpixel im2 u v) ->
  exists out, convert im1 = Ok out /\ convert im2 = Ok out.
Proof.
  intros Hw1 Hw2 Hx1 Hy1 Hx2 Hy2 Hagree.
  destruct (convert_upto_ok im1 Hw1 10 ltac:(lia))
    as (o1 & Ho1 & Hwo1 & Hxo1 & Hyo1 & Hp1).
  destruct (convert_upto_ok im2 Hw2 10 ltac:(lia))
    as (o2 & Ho2 & Hwo2 & Hxo2 & Hyo2 & Hp2).
  assert (Heq : o1 = o2).
  { apply image_ext; try assumption; try congruence.
    intros x y Hx Hy. rewrite Hp1, Hp2 by lia.
    destruct (fregions_cover x y ltac:(lia) ltac:(lia)) as (i & d & Hd & Hin).
    destruct (lookup_lt_is_Some_2 regions i) as [s Hs].
    { apply lookup_lt_Some in Hd. exact Hd. }
    rewrite (foldl_paint_at im1 x y 10 i s d)
      by (auto; apply lookup_lt_Some in Hd; cbn in Hd; lia).
    rewrite (foldl_paint_at im2 x y 10 i s d)
      by (auto; apply lookup_lt_Some in Hd; cbn in Hd; lia).
    pose proof (src_pixel_read im1 i s d x y Hs Hd Hin) as Hf.
    unfold src_pixel. cbv zeta.
    pose proof Hf as Hr. apply footprint_spec in Hr.
    replace (inside im1 _ _) with true
      by (symmetry; apply inside_spec; lia).
    replace (inside im2 _ _) with true
      by (symmetry; apply inside_spec; lia).
    apply Hagree, Hf. }
  subst o2. exists o1. split; assumption.
Qed.

Lemma getpixel_gradient (w h tag x y : Z) :
  0 <= x < w -> 0 <= y < h ->
  getpixel (gradient w h tag) x y = Ok (x, y, tag).
Proof.
  intros Hx Hy. unfold getpixel, gradient; simpl.
  rewrite list_lookup_fmap, lookup_seqZ_lt by lia. simpl.
  rewrite list_lookup_fmap, lookup_seqZ_lt by lia. simpl.
  rewrite !Z2Nat.id by lia. cmp. reflexivity.
Qed.

Lemma convert_reads_footprint_witness :
  exists out, convert sample = Ok out /\ convert sample_big = Ok out.
Proof.
  apply (convert_reads_footprint sample sample_big).
  - apply wf_imageb_spec. vm_compute. reflexivity.
  - apply wf_imageb_spec. vm_compute. reflexivity.
  - cbn. lia.
  - cbn. lia.
  - cbn. lia.
  - cbn. lia.
  - intros u v Hf. apply footprint_spec in Hf.
    unfold sample, sample_big. rewrite !getpixel_gradient by lia.
    reflexivity.
Defined.

(** X3.  The smallest image the loop can read without padding.  Every
    point of every source box lies in the opened image exactly when the
    image is at least 96 wide and 144 high, which is also exactly when it
    contains each of the ten source boxes. *)
Theorem reads_inside_iff (start_im : Image) :
  ((forall i s u v, regions !! i = Some s -> in_box s u v = true ->
      inside start_im u v = true) <->
   96 <= xsize start_im /\ 144 <= ysize start_im) /\
  (forallb (contains_box start_im) regions = true <->
   96 <= xsize start_im /\ 144 <= ysize start_im).
Proof.
  split; split.
  - intros Hall.
    pose proof (Hall 9%nat retain 95 143 eq_refl eq_refl) as Hin.
    apply inside_spec in Hin. lia.
  - intros [Hx Hy] i s u v Hs Hin.
    pose proof (regions_footprint i s u v Hs Hin) as Hf.
    apply footprint_spec in Hf. apply inside_spec. lia.
  - intros Hall. rewrite forallb_forall in Hall.
    assert (Hc : contains_box start_im retain = true).
    { apply Hall. apply list_elem_of_In, (list_elem_of_lookup_2 _ 9%nat).
      reflexivity. }
    unfold contains_box in Hc. rewrite !andb_true_iff, !Z.leb_le in Hc.
    cbn in Hc. lia.
  - intros [Hx Hy]. apply forallb_forall. intros s Hs.
    apply list_elem_of_In, list_elem_of_lookup in Hs as [i Hs].
    assert (Hi : (i < 10)%nat) by (apply lookup_lt_Some in Hs; exact Hs).
    unfold contains_box. rewrite !andb_true_iff, !Z.leb_le.
    do 10 (destruct i as [| i]; [injection Hs as <-; cbn; lia |]).
    lia.
Qed.

(** ** Where a source pixel ends up *)

Lemma place_of_Some (pairs : list (Box * Box)) (u v x y : Z) :
  place_of pairs u v = Some (x, y) ->
  exists i s d,
    pairs !! i = Some (s, d) /\ in_box s u v = true /\
    x = u - box_left s + box_left d /\ y = v - box_upper s + box_upper d.
Proof.
  induction pairs as [| [s d] pairs IH]; cbn [place_of]; intros Hp;
    [discriminate Hp |].
  destruct (in_box s u v) eqn:Hin.
  - injection Hp as <- <-. exists 0%nat, s, d. auto.
  - destruct (IH Hp) as (i & s' & d' & Hl & Hin' & Hx & Hy).
    exists (S i), s', d'. auto.
Qed.

Lemma place_of_None (pairs : list (Box * Box)) (u v : Z) (i : nat)
    (s d : Box) :
  place_of pairs u v = None -> pairs !! i = Some (s, d) ->
  in_box s u v = false.
Proof.
  revert i. induction pairs as [| [s' d'] pairs IH]; cbn [place_of];
    intros i Hp Hl; [discriminate Hl |].
  destruct (in_box s' u v) eqn:Hin; [discriminate Hp |].
  destruct i as [| i]; [injection Hl as <- <-; exact Hin |].
  exact (IH i Hp Hl).
Qed.

(** X7.  No pixel that the loop reads is lost.  A point (u, v) of the
    opened image that lies in some source box has a place on the canvas,
    which depends on (u, v) alone, and the finished canvas holds the
    image's pixel there. *)
Theorem footprint_kept (start_im : Image) (u v : Z) :
  wf_image start_im ->
  footprint u v = true -> inside start_im u v = true ->
  exists x y out p,
    place_of (zip regions fregions) u v = Some (x, y) /\
    0 <= x < 192 /\ 0 <= y < 96 /\
    convert start_im = Ok out /\
    getpixel start_im u v = Ok p /\ getpixel out x y = Ok p.
Proof.
  intros Hw Hf Hins.
  destruct (footprint_region u v Hf) as (i0 & s0 & Hs0 & Hin0).
  destruct (place_of (zip regions fregions) u v) as [[x y] |] eqn:Hp.
  - destruct (place_of_Some _ u v x y Hp) as (i & s & d & Hl & Hin & Hx & Hy).
    apply lookup_zip_with_Some in Hl as (s' & d' & Heq & Hs & Hd).
    injection Heq as <- <-.
    destruct (pair_geometry i s d Hs Hd) as [_ Hsz].
    assert (Hind : in_box d x y = true).
    { apply in_box_spec in Hin. apply in_box_spec.
      unfold same_size, box_width, box_height in Hsz.
      apply andb_true_iff in Hsz as [Hwd Hht].
      apply Z.eqb_eq in Hwd, Hht. lia. }
    destruct (fregions_in_canvas i d x y Hd Hind) as [Hxr Hyr].
    destruct (convert_upto_ok start_im Hw 10 ltac:(lia))
      as (out & Hout & _ & _ & _ & Hpix).
    apply inside_spec in Hins as Hr.
    destruct (getpixel_rows start_im u v Hw (proj1 Hr) (proj2 Hr))
      as (_ & p & _ & _ & _ & Hgp).
    exists x, y, out, p. repeat (split; [first [assumption | reflexivity | lia] |]).
    rewrite (Hpix x y Hxr Hyr).
    rewrite (foldl_paint_at start_im x y 10 i s d)
      by (auto; apply lookup_lt_Some in Hs; cbn in Hs; lia).
    unfold src_pixel. cbv zeta.
    replace (x - box_left d + box_left s) with u by lia.
    replace (y - box_upper d + box_upper s) with v by lia.
    rewrite Hins. exact Hgp.
  - exfalso.
    assert (Hi0 : (i0 < 10)%nat) by (apply lookup_lt_Some in Hs0; exact Hs0).
    destruct (lookup_lt_is_Some_2 fregions i0 Hi0) as [d0 Hd0].
    assert (Hl : zip regions fregions !! i0 = Some (s0, d0)).
    { apply lookup_zip_with_Some. exists s0, d0. auto. }
    rewrite (place_of_None _ u v i0 s0 d0 Hp Hl) in Hin0. discriminate Hin0.
Qed.

Lemma footprint_kept_witness :
  exists x y out p,
    place_of (zip regions fregions) 60 10 = Some (x, y) /\
    0 <= x < 192 /\ 0 <= y < 96 /\
    convert sample = Ok out /\
    getpixel sample 60 10 = Ok p /\ getpixel out x y = Ok p.
Proof.
  apply (footprint_kept sample 60 10).
  - apply wf_imageb_spec. vm_compute. reflexivity.
  - reflexivity.
  - reflexivity.
Defined.

(** ** Pixels the canvas holds twice *)

(** X6.  The edges and the centre of the left block repeat pixels of the
    right block.  For the five pairs after the four corners (indices 4 to
    8), the canvas pixel at a point of the destination box equals the
    canvas pixel of the right block that shows the same source point,
    whatever the opened image is. *)
Theorem left_block_repeats_right (start_im : Image) (i : nat) (s d : Box)
    (x y : Z) :
  wf_image start_im -> (4 <= i <= 8)%nat ->
  regions !! i = Some s -> fregions !! i = Some d ->
  in_box d x y = true ->
  exists out p,
    convert start_im = Ok out /\
    0 <= x < 96 /\
    getpixel out x y = Ok p /\
    getpixel out (96 + (x - box_left d + box_left s))
                 (y - box_upper d + box_upper s - 48) = Ok p.
Proof.
  intros Hw Hi Hs Hd Hin.
  destruct (convert_upto_ok start_im Hw 10 ltac:(lia))
    as (out & Hout & Hwo & Hxo & Hyo & Hpix).
  destruct (fregions_in_canvas i d x y Hd Hin) as [Hx Hy].
  destruct (getpixel_rows out x y Hwo ltac:(lia) ltac:(lia))
    as (_ & p & _ & _ & _ & Hp).
  pose proof Hin as Hb. apply in_box_spec in Hb.
  set (u := x - box_left d + box_left s).
  set (v := y - box_upper d + box_upper s).
  assert (Hgeo : x < 96 /\ 0 <= u < 96 /\ 48 <= v < 144).
  { subst u v. destruct Hi as [Hlo Hhi].
    do 4 (destruct i as [| i]; [lia |]).
    do 5 (destruct i as [| i];
      [injection Hs as <-; injection Hd as <-; cbn in Hb |- *; lia |]).
    lia. }
  exists out, p. split; [exact Hout |]. split; [lia |].
  split; [exact Hp |].
  rewrite <- Hp. rewrite !Hpix by lia.
  rewrite (foldl_paint_at start_im x y 10 i s d) by (auto; lia).
  rewrite (foldl_paint_at start_im (96 + u) (v - 48) 10 9 retain fretain);
    [| lia | reflexivity | reflexivity | apply in_box_spec; cbn; lia].
  unfold src_pixel. cbv zeta. fold u v.
  replace (96 + u - box_left fretain + box_left retain) with u by (cbn; lia).
  replace (v - 48 - box_upper fretain + box_upper retain) with v
    by (cbn; lia).
  reflexivity.
Qed.

Lemma left_block_repeats_right_witness :
  exists out p,
    convert sample = Ok out /\
    0 <= 30 < 96 /\
    getpixel out 30 30 = Ok p /\
    getpixel out (96 + (30 - box_left fcenter + box_left center))
                 (30 - box_upper fcenter + box_upper center - 48) = Ok p.
Proof.
  apply (left_block_repeats_right sample 8 center fcenter 30 30).
  - apply wf_imageb_spec. vm_compute. reflexivity.
  - lia.
  - reflexivity.
  - reflexivity.
  - reflexivity.
Defined.

(** ** The right block *)

(** X10.  The right block of the canvas is the lower part of the sheet,
    as a whole raster: cropping the finished canvas to (96, 0, 192, 96)
    gives the same image as cropping the opened image to (0, 48, 96, 144),
    padding included when the opened image is too small. *)
Theorem right_block_is_retain (start_im : Image) :
  wf_image start_im ->
  exists out c,
    convert start_im = Ok out /\
    Image_crop start_im retain = Ok c /\
    Image_crop out fretain = Ok c.
Proof.
  intros Hw.
  destruct (convert_upto_ok start_im Hw 10 ltac:(lia))
    as (out & Hout & Hwo & Hxo & Hyo & Hpix).
  destruct (Image_crop_ok start_im 0 48 96 144 Hw ltac:(lia) ltac:(lia))
    as (c & Hc & Hwc & Hxc & Hyc & Hcp).
  destruct (Image_crop_ok out 96 0 192 96 Hwo ltac:(lia) ltac:(lia))
    as (c' & Hc' & Hwc' & Hxc' & Hyc' & Hcp').
  exists out, c. split; [exact Hout |]. split; [exact Hc |].
  change (Image_crop out fretain) with (Image_crop out (96, 0, 192, 96)).
  rewrite Hc'. f_equal.
  apply image_ext; try assumption; try lia.
  intros x y Hx Hy. rewrite Hcp', Hcp by lia.
  replace (inside out (x + 96) (y + 0)) with true
    by (symmetry; apply inside_spec; lia).
  rewrite Hpix by lia.
  rewrite (foldl_paint_at start_im (x + 96) (y + 0) 10 9 retain fretain);
    [| lia | reflexivity | reflexivity | apply in_box_spec; cbn; lia].
  unfold src_pixel. cbv zeta.
  replace (x + 96 - box_left fretain + box_left retain) with (x + 0)
    by (cbn; lia).
  replace (y + 0 - box_upper fretain + box_upper retain) with (y + 48)
    by (cbn; lia).
  reflexivity.
Qed.

Lemma right_block_is_retain_witness :
  exists out c,
    convert tiny = Ok out /\
    Image_crop tiny retain = Ok c /\
    Image_crop out fretain = Ok c.
Proof.
  apply (right_block_is_retain tiny).
  apply wf_imageb_spec. vm_compute. reflexivity.
Defined.
